(** * pico-serprog: the serprog protocol engine of [main.c]

    A shallow embedding of the firmware's command dispatcher, its blocking
    transport over the USB CDC channel and the SPI bus controller, followed
    by the properties of the specification that were checked against it.

    Unsigned C integers ([uint], [uint8_t], [uint32_t]) are values of [N];
    truncation to the width of the variable is written out where the code
    can produce a larger value.  Bytes on the wire are [Byte.byte]. *)

From Equations Require Import Equations.
From Stdlib Require Import NArith Arith List Bool Lia Strings.Byte.
Import ListNotations.

Local Open Scope N_scope.

(** ** Bytes and little-endian memory images *)

Definition u8 (n : N) : byte :=
  match Byte.of_N (n mod 256) with
  | Some b => b
  | None => x00
  end.

(** The [len] bytes of an object of value [n] as they lie in memory on the
    little-endian Cortex-M0+: what [sendbytes_blocking(&n, len)] transmits. *)
Fixpoint le_bytes (len : nat) (n : N) : list byte :=
  match len with
  | O => []
  | S k => u8 n :: le_bytes k (n / 256)
  end.

(** The value of a little-endian byte string. *)
Fixpoint le_value (bs : list byte) : N :=
  match bs with
  | [] => 0
  | b :: bs' => Byte.to_N b + 256 * le_value bs'
  end.

(** [store_le old bs]: the value of a variable that held [old] after
    [readbytes_blocking(&var, length bs)] wrote [bs] over its lowest-addressed
    bytes.  The bytes above [length bs] keep what they held before. *)
Definition store_le (old : N) (bs : list byte) : N :=
  let k := 256 ^ N.of_nat (length bs) in
  (old / k) * k + le_value bs.

Definition uint32 (n : N) : N := n mod 2 ^ 32.

(** ** Protocol constants *)

Module Serprog.

(** Modelled from the spec: [serprog.h] is not part of the sources at hand.
    The specification requires the standard serprog byte values for the
    acknowledge bytes and the command identifiers; these are the values of
    the serprog protocol. *)
Definition S_ACK : N := 0x06.
Definition S_NAK : N := 0x15.
Definition S_CMD_NOP : N := 0x00.
Definition S_CMD_Q_IFACE : N := 0x01.
Definition S_CMD_Q_CMDMAP : N := 0x02.
Definition S_CMD_Q_PGMNAME : N := 0x03.
Definition S_CMD_Q_SERBUF : N := 0x04.
Definition S_CMD_Q_BUSTYPE : N := 0x05.
Definition S_CMD_SYNCNOP : N := 0x10.
Definition S_CMD_S_BUSTYPE : N := 0x12.
Definition S_CMD_O_SPIOP : N := 0x13.
Definition S_CMD_S_SPI_FREQ : N := 0x14.
Definition S_CMD_S_PIN_STATE : N := 0x15.
Definition S_CMD_S_SPI_CS : N := 0x16.

End Serprog.
Import Serprog.

(** ** Board constants of [main.c] *)

Definition SPI_CS_0 : N := 5.
Definition SPI_MISO : N := 4.
Definition SPI_MOSI : N := 3.
Definition SPI_SCK : N := 2.
Definition NUM_CS_AVAILABLE : N := 4.
Definition BUF_SIZE : N := 4096.

(** [progname\[16\]]: the string, null-padded to the size of the array. *)
Definition progname : list byte :=
  [x70; x69; x63; x6f; x2d; x73; x65; x72; x70; x72; x6f; x67;
   x00; x00; x00; x00].

(** [cmdmap\[8\]]: one initialiser; the seven remaining words are zero. *)
Definition cmdmap : list N :=
  [ N.lor (N.shiftl 1 S_CMD_NOP)
   (N.lor (N.shiftl 1 S_CMD_Q_IFACE)
   (N.lor (N.shiftl 1 S_CMD_Q_CMDMAP)
   (N.lor (N.shiftl 1 S_CMD_Q_PGMNAME)
   (N.lor (N.shiftl 1 S_CMD_Q_SERBUF)
   (N.lor (N.shiftl 1 S_CMD_Q_BUSTYPE)
   (N.lor (N.shiftl 1 S_CMD_SYNCNOP)
   (N.lor (N.shiftl 1 S_CMD_O_SPIOP)
   (N.lor (N.shiftl 1 S_CMD_S_BUSTYPE)
   (N.lor (N.shiftl 1 S_CMD_S_SPI_FREQ)
   (N.lor (N.shiftl 1 S_CMD_S_PIN_STATE)
          (N.shiftl 1 S_CMD_S_SPI_CS)))))))))));
    0; 0; 0; 0; 0; 0; 0 ].

(** [(uint8_t * )cmdmap, sizeof(cmdmap)]: the 32 bytes of the array. *)
Definition cmdmap_bytes : list byte := flat_map (le_bytes 4) cmdmap.

(** Bit [cmd] of a serialized bitmap: bit [cmd mod 8] of byte [cmd / 8]. *)
Definition bitmap_bit (bm : list byte) (cmd : N) : bool :=
  N.testbit (Byte.to_N (nth (N.to_nat (cmd / 8)) bm x00)) (cmd mod 8).

(** ** GPIO pads

    The Pico SDK's GPIO driver is an external collaborator (configure a pin
    as a driven output, as an input with pull-up, as an input without pulls);
    each call is modelled by its effect on the pad it names. *)

Inductive gpio_function := GPIO_FUNC_NULL | GPIO_FUNC_SIO | GPIO_FUNC_SPI.
Inductive gpio_direction := GPIO_IN | GPIO_OUT.
Inductive gpio_drive_strength :=
  GPIO_DRIVE_STRENGTH_2MA | GPIO_DRIVE_STRENGTH_4MA
| GPIO_DRIVE_STRENGTH_8MA | GPIO_DRIVE_STRENGTH_12MA.

Record pad := mkPad {
  pad_function : gpio_function;
  pad_dir : gpio_direction;
  pad_level : bool;        (* the output register: what the pad drives when an output *)
  pad_pull_up : bool;
  pad_pull_down : bool;
  pad_drive : gpio_drive_strength
}.

Definition gpio_bank := N -> pad.

Definition upd (g : gpio_bank) (pin : N) (f : pad -> pad) : gpio_bank :=
  fun p => if N.eqb p pin then f (g p) else g p.

Definition gpio_put (pin : N) (v : bool) (g : gpio_bank) : gpio_bank :=
  upd g pin (fun p => mkPad (pad_function p) (pad_dir p) v
                            (pad_pull_up p) (pad_pull_down p) (pad_drive p)).

Definition gpio_set_dir (pin : N) (d : gpio_direction) (g : gpio_bank) : gpio_bank :=
  upd g pin (fun p => mkPad (pad_function p) d (pad_level p)
                            (pad_pull_up p) (pad_pull_down p) (pad_drive p)).

Definition gpio_set_function (pin : N) (f : gpio_function) (g : gpio_bank) : gpio_bank :=
  upd g pin (fun p => mkPad f (pad_dir p) (pad_level p)
                            (pad_pull_up p) (pad_pull_down p) (pad_drive p)).

Definition gpio_set_pulls (pin : N) (up down : bool) (g : gpio_bank) : gpio_bank :=
  upd g pin (fun p => mkPad (pad_function p) (pad_dir p) (pad_level p)
                            up down (pad_drive p)).

Definition gpio_pull_up (pin : N) (g : gpio_bank) : gpio_bank :=
  gpio_set_pulls pin true false g.

Definition gpio_set_drive_strength (pin : N) (d : gpio_drive_strength)
  (g : gpio_bank) : gpio_bank :=
  upd g pin (fun p => mkPad (pad_function p) (pad_dir p) (pad_level p)
                            (pad_pull_up p) (pad_pull_down p) d).

(** [gpio_init]: the pad becomes a software-controlled input with its output
    register cleared; the pulls are left as they are. *)
Definition gpio_init (pin : N) (g : gpio_bank) : gpio_bank :=
  gpio_set_function pin GPIO_FUNC_SIO (gpio_put pin false (gpio_set_dir pin GPIO_IN g)).

(** What a pad is configured as. *)
Definition driven_high (p : pad) : Prop :=
  pad_dir p = GPIO_OUT /\ pad_level p = true.

Definition input_pulled_up (p : pad) : Prop :=
  pad_dir p = GPIO_IN /\ pad_pull_up p = true.

Definition neutral_input (p : pad) : Prop :=
  pad_dir p = GPIO_IN /\ pad_pull_up p = false /\ pad_pull_down p = false.

(** ** [use_cs], [pullup_cs], [disable_pin], [cs_select], [cs_deselect] *)

Definition use_cs (pin : N) (g : gpio_bank) : gpio_bank :=
  gpio_set_drive_strength pin GPIO_DRIVE_STRENGTH_12MA
    (gpio_set_dir pin GPIO_OUT (gpio_put pin true g)).

Definition pullup_cs (pin : N) (g : gpio_bank) : gpio_bank :=
  gpio_pull_up pin (gpio_set_dir pin GPIO_IN g).

Definition disable_pin (pin : N) (g : gpio_bank) : gpio_bank :=
  gpio_set_pulls pin false false (gpio_init pin g).

Definition cs_select (pin : N) (g : gpio_bank) : gpio_bank := gpio_put pin false g.

Definition cs_deselect (pin : N) (g : gpio_bank) : gpio_bank := gpio_put pin true g.

(** Case analysis on a computed value that keeps the equation at hand. *)
Definition inspect {A : Type} (a : A) : {b : A | a = b} := exist _ a eq_refl.

(** A counted [for] loop: [body] at [i], [i+1], ... ([n] times). *)
Fixpoint for_loop {A : Type} (n : nat) (i : N) (body : N -> A -> A) (a : A) : A :=
  match n with
  | O => a
  | S k => for_loop k (i + 1) body (body i a)
  end.

(** [for (i = lo; i < hi; i++) body(i)] *)
Definition for_range {A : Type} (lo hi : N) (body : N -> A -> A) (a : A) : A :=
  for_loop (N.to_nat (hi - lo)) lo body a.

(** ** The environment of the firmware

    What the board and the attached flash chip decide, and the firmware can
    only observe: the baud rate the PL022 clock divider achieves for a
    requested one ([spi_init] and [spi_set_baudrate] return it), the byte the
    chip shifts out during the [k]-th byte transfer on the bus, and the size
    of the CDC transmit FIFO. *)
Class Board := {
  spi_divider : N -> N;
  spi_miso : N -> byte;
  tx_bufsize : positive
}.

(** ** The PL022 SPI peripheral *)

Record pl022 := mkSpi {
  spi_up : bool;              (* initialised and not yet deinitialised *)
  spi_baudrate : N;           (* the rate the divider was last set to *)
  spi_mosi : list byte;       (* every byte shifted out so far, oldest first *)
  spi_clocks : N              (* number of byte transfers so far *)
}.

(** ** The USB CDC channel (TinyUSB)

    The host's bytes arrive in packets.  [rx_pending] holds the packets still
    to arrive, [rx_fifo] the bytes that arrived and were not read yet.
    [tx_queued] counts the bytes in the transmit FIFO; the host takes what
    is sent to it, so that a service step empties that FIFO.  [usb_log]
    records, in order, every byte the firmware took out of the receive FIFO
    and every byte it put into the transmit FIFO. *)

Inductive usb_event := Rx (b : byte) | Tx (b : byte).

Record cdc := mkCdc {
  rx_fifo : list byte;
  rx_pending : list (list byte);
  tx_queued : N;
  usb_log : list usb_event
}.

(** The bytes the host has sent or will send that the firmware has not read. *)
Definition rx_stream (c : cdc) : list byte := rx_fifo c ++ concat (rx_pending c).

(** ** The firmware's state: its globals, the pads, the peripheral, the channel *)

Record state := mkState {
  spi_enabled : N;      (* uint8_t spi_enabled *)
  cs_pin : N;           (* uint cs_pin *)
  baud : N;             (* uint baud *)
  gpio : gpio_bank;
  spi_hw : pl022;
  usb : cdc
}.

(** A computation on the state that returns an [A], or blocks forever. *)
Definition M (A : Type) : Type := state -> option (A * state).

Definition ret {A} (a : A) : M A := fun st => Some (a, st).

Definition bind {A B} (m : M A) (k : A -> M B) : M B :=
  fun st => match m st with
            | None => None
            | Some (a, st1) => k a st1
            end.

Notation "x <- m ;; k" := (bind m (fun x => k))
  (at level 61, m at next level, right associativity).
Notation "m ;; k" := (bind m (fun _ => k))
  (at level 61, right associativity).

Definition set_usb (st : state) (c : cdc) : state :=
  mkState (spi_enabled st) (cs_pin st) (baud st) (gpio st) (spi_hw st) c.

Definition set_gpio (st : state) (g : gpio_bank) : state :=
  mkState (spi_enabled st) (cs_pin st) (baud st) g (spi_hw st) (usb st).

Definition set_spi_hw (st : state) (s : pl022) : state :=
  mkState (spi_enabled st) (cs_pin st) (baud st) (gpio st) s (usb st).

(** A transport call that returns a value. *)
Definition on_usb {A} (f : cdc -> option (A * cdc)) : M A :=
  fun st => match f (usb st) with
            | None => None
            | Some (a, c) => Some (a, set_usb st c)
            end.

(** A transport call that returns nothing. *)
Definition on_usb_ (f : cdc -> option cdc) : M unit :=
  fun st => match f (usb st) with
            | None => None
            | Some c => Some (tt, set_usb st c)
            end.

Definition on_gpio (f : gpio_bank -> gpio_bank) : M unit :=
  fun st => Some (tt, set_gpio st (f (gpio st))).

Section Firmware.

Context {board : Board}.

(** One service step: the next packet, if any, lands in the receive FIFO and
    the transmit FIFO is handed to the host.  The host of this channel is
    attached and takes what is queued at every step, so a write waits one
    step at most; a host that stops taking data, for which [wait_for_write]
    would spin as [wait_for_read] does for one that stops sending, is not
    part of it. *)
Definition tud_task (c : cdc) : cdc :=
  match rx_pending c with
  | [] => mkCdc (rx_fifo c) [] 0 (usb_log c)
  | p :: ps => mkCdc (rx_fifo c ++ p) ps 0 (usb_log c)
  end.

Definition tud_cdc_n_available (c : cdc) : N := N.of_nat (length (rx_fifo c)).

(** Reads up to [len] bytes: what is there, never more than asked for. *)
Definition tud_cdc_n_read (len : N) (c : cdc) : list byte * cdc :=
  let bs := firstn (N.to_nat len) (rx_fifo c) in
  (bs, mkCdc (skipn (N.to_nat len) (rx_fifo c)) (rx_pending c) (tx_queued c)
             (usb_log c ++ map Rx bs)).

Definition tud_cdc_n_write_available (c : cdc) : N := Npos tx_bufsize - tx_queued c.

(** Queues as many of [bs] as fit and returns how many that was. *)
Definition tud_cdc_n_write (bs : list byte) (c : cdc) : N * cdc :=
  let acc := firstn (N.to_nat (tud_cdc_n_write_available c)) bs in
  (N.of_nat (length acc),
   mkCdc (rx_fifo c) (rx_pending c) (tx_queued c + N.of_nat (length acc))
         (usb_log c ++ map Tx acc)).

Definition tud_cdc_n_write_flush (c : cdc) : cdc :=
  mkCdc (rx_fifo c) (rx_pending c) 0 (usb_log c).

(** [do tud_task(); while (!ready);]  Once no packet is left to arrive a
    service step changes nothing any more, so a loop that is not ready then
    spins forever: the result is [None]. *)
Fixpoint poll_until (ready : cdc -> bool) (steps : nat) (c : cdc) : option cdc :=
  match steps with
  | O => None
  | S k => let c' := tud_task c in
           if ready c' then Some c' else poll_until ready k c'
  end.

Definition wait_for_read (c : cdc) : option cdc :=
  poll_until (fun c' => negb (tud_cdc_n_available c' =? 0))
             (S (length (rx_pending c))) c.

Definition wait_for_write (c : cdc) : option cdc :=
  poll_until (fun c' => negb (tud_cdc_n_write_available c' =? 0))
             (S (length (rx_pending c))) c.

(** A loop that was left found its condition true. *)
Ltac poll_exit H :=
  match type of H with
  | poll_until ?ready ?k ?c = Some ?c' =>
      let R := fresh "Hready" in
      assert (R : forall n c0, poll_until ready n c0 = Some c' -> ready c' = true);
      [ clear; intros n; induction n as [|n IH]; intros c0 H0; simpl in H0;
        [ discriminate
        | destruct (ready (tud_task c0)) eqn:E;
          [ injection H0 as <-; exact E | exact (IH _ H0) ] ]
      | specialize (R _ _ H); cbv beta in R ]
  end.

(** [readbytes_blocking(b, len)]: the bytes stored at [b], in order. *)
Equations? readbytes_blocking (len : N) (c : cdc) : option (list byte * cdc)
  by wf (N.to_nat len) lt :=
readbytes_blocking len c with N.eq_dec len 0 := {
  | left _ := Some ([], c)
  | right Hlen with inspect (wait_for_read c) := {
    | exist _ None _ := None
    | exist _ (Some c1) Hw with inspect (tud_cdc_n_read len c1) := {
      | exist _ (bs, c2) Hr :=
          option_map (fun r => (bs ++ fst r, snd r))
                     (readbytes_blocking (len - N.of_nat (length bs)) c2) } } }.
Proof.
  unfold wait_for_read in Hw. poll_exit Hw.
  unfold tud_cdc_n_available in Hready.
  destruct (rx_fifo c1) as [|b f]; [discriminate|].
  destruct (N.to_nat len) as [|k] eqn:E; [lia|].
  simpl. lia.
Qed.

Definition readbyte_blocking (c : cdc) : option (byte * cdc) :=
  match wait_for_read c with
  | None => None
  | Some c1 =>
      match tud_cdc_n_read 1 c1 with
      | (b :: _, c2) => Some (b, c2)
      | ([], _) => None
      end
  end.

(** [sendbytes_blocking(b, len)], with [bs] the [len] bytes at [b]. *)
Equations? sendbytes_blocking (bs : list byte) (c : cdc) : option cdc
  by wf (length bs) lt :=
sendbytes_blocking [] c := Some c;
sendbytes_blocking (b :: bs) c with inspect (wait_for_write c) := {
  | exist _ None _ := None
  | exist _ (Some c1) Hw with inspect (tud_cdc_n_write (b :: bs) c1) := {
    | exist _ (w, c2) Hr := sendbytes_blocking (skipn (N.to_nat w) (b :: bs)) c2 } }.
Proof.
  unfold wait_for_write in Hw. poll_exit Hw.
  destruct (tud_cdc_n_write_available c1) as [|a]; [discriminate|].
  rewrite Nat2N.id, length_skipn, length_firstn. simpl length. lia.
Qed.

Definition sendbyte_blocking (b : byte) (c : cdc) : option cdc :=
  match wait_for_write c with
  | None => None
  | Some c1 => Some (snd (tud_cdc_n_write [b] c1))
  end.

(** ** The SPI driver of the Pico SDK, as the firmware uses it

    An external collaborator too.  The calls are taken at their interface:
    initialising and setting the baud rate return the rate achieved, a
    blocking transfer returns once its [len] bytes went over the bus. *)

Definition spi_init (baudrate : N) (s : pl022) : pl022 :=
  mkSpi true (spi_divider baudrate) (spi_mosi s) (spi_clocks s).

Definition spi_deinit (s : pl022) : pl022 :=
  mkSpi false (spi_baudrate s) (spi_mosi s) (spi_clocks s).

Definition spi_set_baudrate (baudrate : N) (s : pl022) : N * pl022 :=
  (spi_divider baudrate,
   mkSpi (spi_up s) (spi_divider baudrate) (spi_mosi s) (spi_clocks s)).

Definition spi_write_blocking (buf : list byte) (s : pl022) : pl022 :=
  mkSpi (spi_up s) (spi_baudrate s) (spi_mosi s ++ buf)
        (spi_clocks s + N.of_nat (length buf)).

(** The bytes shifted in during [len] transfers that start at transfer [k]. *)
Fixpoint miso_bytes (len : nat) (k : N) : list byte :=
  match len with
  | O => []
  | S n => spi_miso k :: miso_bytes n (k + 1)
  end.

(** [spi_read_blocking(spi, tx, buf, len)]: shifts [tx] out [len] times and
    returns what came in. *)
Definition spi_read_blocking (tx : byte) (len : N) (s : pl022) : list byte * pl022 :=
  (miso_bytes (N.to_nat len) (spi_clocks s),
   mkSpi (spi_up s) (spi_baudrate s) (spi_mosi s ++ repeat tx (N.to_nat len))
         (spi_clocks s + len)).

(** ** Bus controller *)

(** [enable_spi], as built for a board that does not define
    [PICO_DEFAULT_LED_PIN]: the two statements under that [#ifdef], which
    make the pad of the status LED an output, are not part of it. *)
Definition enable_spi (st : state) : state :=
  (* Setup default CS as output, others as inputs with pull-ups *)
  let g1 := for_range (SPI_CS_0 + 1) (SPI_CS_0 + NUM_CS_AVAILABLE)
                      (fun i g => pullup_cs i (gpio_init i g)) (gpio st) in
  let g2 := use_cs (cs_pin st) (gpio_init (cs_pin st) g1) in
  (* Setup PL022 *)
  let s := spi_init (baud st) (spi_hw st) in
  let g3 := gpio_set_function SPI_SCK GPIO_FUNC_SPI
              (gpio_set_function SPI_MOSI GPIO_FUNC_SPI
                 (gpio_set_function SPI_MISO GPIO_FUNC_SPI g2)) in
  let g4 := gpio_set_drive_strength SPI_SCK GPIO_DRIVE_STRENGTH_12MA
              (gpio_set_drive_strength SPI_MOSI GPIO_DRIVE_STRENGTH_12MA
                 (gpio_set_drive_strength SPI_MISO GPIO_DRIVE_STRENGTH_12MA g3)) in
  mkState 1 (cs_pin st) (baud st) g4 s (usb st).

Definition disable_spi (st : state) : state :=
  let g1 := for_range 0 NUM_CS_AVAILABLE
                      (fun i g => disable_pin (SPI_CS_0 + i) g) (gpio st) in
  let g2 := disable_pin SPI_SCK (disable_pin SPI_MOSI (disable_pin SPI_MISO g1)) in
  (* Disable SPI peripheral *)
  mkState 0 (cs_pin st) (baud st) g2 (spi_deinit (spi_hw st)) (usb st).

(** ** Command handlers *)

Definition s_cmd_s_bustype : M unit :=
  b <- on_usb readbyte_blocking ;;
  if N.testbit (Byte.to_N b) 3
  then on_usb_ (sendbyte_blocking (u8 S_ACK))
  else on_usb_ (sendbyte_blocking (u8 S_NAK)).

(** The first loop of [s_cmd_o_spiop]: host to chip, a buffer at a time. *)
Equations? spiop_write (wlen : N) (st : state) : option (unit * state)
  by wf (N.to_nat wlen) lt :=
spiop_write wlen st with N.eq_dec wlen 0 := {
  | left _ := Some (tt, st)
  | right _ :=
      let cur := N.min wlen BUF_SIZE in
      match on_usb (readbytes_blocking cur) st with
      | None => None
      | Some (buf, st1) =>
          spiop_write (wlen - cur)
                      (set_spi_hw st1 (spi_write_blocking buf (spi_hw st1)))
      end }.
Proof. subst cur. unfold BUF_SIZE. lia. Qed.

(** The second loop of [s_cmd_o_spiop]: chip to host, a buffer at a time. *)
Equations? spiop_read (rlen : N) (st : state) : option (unit * state)
  by wf (N.to_nat rlen) lt :=
spiop_read rlen st with N.eq_dec rlen 0 := {
  | left _ := Some (tt, st)
  | right _ :=
      let cur := N.min rlen BUF_SIZE in
      let (buf, s) := spi_read_blocking x00 cur (spi_hw st) in
      match on_usb_ (sendbytes_blocking buf) (set_spi_hw st s) with
      | None => None
      | Some (_, st1) => spiop_read (rlen - cur) st1
      end }.
Proof. subst cur. unfold BUF_SIZE. lia. Qed.

(** The two length fields of an SPI operation.  [wlen] and [rlen] are
    automatic variables without an initialiser: [wlen0] and [rlen0] stand for
    what their four bytes hold when the handler is entered.  Each
    [readbytes_blocking(&var, 3)] writes the three lowest-addressed bytes. *)
Definition spiop_lengths (wlen0 rlen0 : N) : M (N * N) :=
  w <- on_usb (readbytes_blocking 3) ;;
  r <- on_usb (readbytes_blocking 3) ;;
  ret (store_le (uint32 wlen0) w, store_le (uint32 rlen0) r).

Definition s_cmd_o_spiop (wlen0 rlen0 : N) : M unit :=
  lens <- spiop_lengths wlen0 rlen0 ;;
  (fun st => on_gpio (cs_select (cs_pin st)) st) ;;
  spiop_write (fst lens) ;;
  on_usb_ (sendbyte_blocking (u8 S_ACK)) ;;
  spiop_read (snd lens) ;;
  (fun st => on_gpio (cs_deselect (cs_pin st)) st).

(** [want_baud] has all of its four bytes written before it is read. *)
Definition s_cmd_s_spi_freq : M unit :=
  bs <- on_usb (readbytes_blocking 4) ;;
  let want_baud := le_value bs in
  if want_baud =? 0
  then (* 0 Hz is reserved *)
    on_usb_ (sendbyte_blocking (u8 S_NAK))
  else
    (* Set frequency *)
    (fun st =>
       let (a, s) := spi_set_baudrate want_baud (spi_hw st) in
       Some (tt, mkState (spi_enabled st) (cs_pin st) (uint32 a)
                         (gpio st) s (usb st))) ;;
    (* Send back actual value *)
    on_usb_ (sendbyte_blocking (u8 S_ACK)) ;;
    (fun st => on_usb_ (sendbytes_blocking (le_bytes 4 (baud st))) st).

Definition s_cmd_s_pin_state : M unit :=
  b <- on_usb readbyte_blocking ;;
  (if Byte.to_N b =? 0
   then (fun st => Some (tt, disable_spi st))
   else (fun st => Some (tt, enable_spi st))) ;;
  on_usb_ (sendbyte_blocking (u8 S_ACK)).

(** [s_cmd_s_spi_cs].  The [return] that follows the range check is not
    inside the [if]: the handler ends there whatever [cs] is.  The rest of
    the body, [s_cmd_s_spi_cs_tail], is never reached. *)
Definition s_cmd_s_spi_cs : M unit :=
  cs <- on_usb readbyte_blocking ;;
  (if NUM_CS_AVAILABLE <=? Byte.to_N cs
   then on_usb_ (sendbyte_blocking (u8 S_NAK))
   else ret tt).

(** The statements of [s_cmd_s_spi_cs] after its [return]. *)
Definition s_cmd_s_spi_cs_tail (cs0 : N) : M unit :=
  let cs := (cs0 + SPI_CS_0) mod 256 in
  (fun st =>
     if negb (spi_enabled st =? 0) && negb (cs_pin st =? cs)
     then on_gpio (fun g => use_cs cs (pullup_cs (cs_pin st) g)) st
     else Some (tt, st)) ;;
  (fun st => Some (tt, mkState (spi_enabled st) cs (baud st)
                               (gpio st) (spi_hw st) (usb st))) ;;
  on_usb_ (sendbyte_blocking (u8 S_ACK)).

(** ** Command dispatcher *)

Inductive switch_case :=
| case_NOP | case_Q_IFACE | case_Q_CMDMAP | case_Q_PGMNAME | case_Q_SERBUF
| case_Q_BUSTYPE | case_SYNCNOP | case_S_BUSTYPE | case_O_SPIOP
| case_S_SPI_FREQ | case_S_PIN_STATE | case_S_SPI_CS | case_default.

(** The [switch (cmd)] of [command_loop]: the label control goes to. *)
Definition switch (cmd : N) : switch_case :=
  if cmd =? S_CMD_NOP then case_NOP
  else if cmd =? S_CMD_Q_IFACE then case_Q_IFACE
  else if cmd =? S_CMD_Q_CMDMAP then case_Q_CMDMAP
  else if cmd =? S_CMD_Q_PGMNAME then case_Q_PGMNAME
  else if cmd =? S_CMD_Q_SERBUF then case_Q_SERBUF
  else if cmd =? S_CMD_Q_BUSTYPE then case_Q_BUSTYPE
  else if cmd =? S_CMD_SYNCNOP then case_SYNCNOP
  else if cmd =? S_CMD_S_BUSTYPE then case_S_BUSTYPE
  else if cmd =? S_CMD_O_SPIOP then case_O_SPIOP
  else if cmd =? S_CMD_S_SPI_FREQ then case_S_SPI_FREQ
  else if cmd =? S_CMD_S_PIN_STATE then case_S_PIN_STATE
  else if cmd =? S_CMD_S_SPI_CS then case_S_SPI_CS
  else case_default.

Definition send (n : N) : M unit := on_usb_ (sendbyte_blocking (u8 n)).

(** The statements under each label.  [wlen0] and [rlen0] are the stale
    contents of the stack slots [s_cmd_o_spiop] gets for its lengths. *)
Definition run_case (wlen0 rlen0 : N) (k : switch_case) : M unit :=
  match k with
  | case_NOP => send S_ACK
  | case_Q_IFACE => send S_ACK ;; send 0x01 ;; send 0x00
  | case_Q_CMDMAP => send S_ACK ;; on_usb_ (sendbytes_blocking cmdmap_bytes)
  | case_Q_PGMNAME => send S_ACK ;; on_usb_ (sendbytes_blocking progname)
  | case_Q_SERBUF => send S_ACK ;; send 0xFF ;; send 0xFF
  | case_Q_BUSTYPE => send S_ACK ;; send (N.shiftl 1 3)
  | case_SYNCNOP => send S_NAK ;; send S_ACK
  | case_S_BUSTYPE => s_cmd_s_bustype
  | case_O_SPIOP => s_cmd_o_spiop wlen0 rlen0
  | case_S_SPI_FREQ => s_cmd_s_spi_freq
  | case_S_PIN_STATE => s_cmd_s_pin_state
  | case_S_SPI_CS => s_cmd_s_spi_cs
  | case_default => send S_NAK
  end.

(** One round of the [while (1)] of [command_loop].  The status LED is left
    out. *)
Definition command_loop_round (wlen0 rlen0 : N) : M unit :=
  cmd <- on_usb readbyte_blocking ;;
  run_case wlen0 rlen0 (switch (Byte.to_N cmd)) ;;
  (fun st => Some (tt, set_usb st (tud_cdc_n_write_flush (usb st)))).

(** ** Startup *)

(** The globals as initialised, over the pads and the channel as [main]
    finds them. *)
Definition power_on (g : gpio_bank) (s : pl022) (c : cdc) : state :=
  mkState 0 SPI_CS_0 12000000 g s c.

(** [main] up to its call of [command_loop]. *)
Definition main_setup (g : gpio_bank) (s : pl022) (c : cdc) : state :=
  enable_spi (power_on g s c).

(** The states [command_loop] is in at the start of a round. *)
Inductive reachable : state -> Prop :=
| reach_setup g s c : reachable (main_setup g s c)
| reach_round st wlen0 rlen0 st' :
    reachable st -> command_loop_round wlen0 rlen0 st = Some (tt, st') ->
    reachable st'.

End Firmware.

(** * Vocabulary of the properties *)

(** What a transport call did to the channel: the unread bytes of the host
    that are left, and the events it added to the log. *)
Definition usb_moved (c c' : cdc) (ev : list usb_event) (rest : list byte) : Prop :=
  rx_stream c' = rest /\ usb_log c' = usb_log c ++ ev.

(** The globals a handler left alone. *)
Definition globals_kept (st st' : state) : Prop :=
  spi_enabled st' = spi_enabled st /\ cs_pin st' = cs_pin st /\ baud st' = baud st.

(** The peripheral after it shifted [out] out, and nothing else happened. *)
Definition spi_shifted (s s' : pl022) (out : list byte) : Prop :=
  spi_up s' = spi_up s /\ spi_baudrate s' = spi_baudrate s /\
  spi_mosi s' = spi_mosi s ++ out /\
  spi_clocks s' = spi_clocks s + N.of_nat (length out).

(** A computation that, when it returns, has left [cs_pin] alone. *)
Definition keeps_cs_pin {A} (m : M A) : Prop :=
  forall st a st', m st = Some (a, st') -> cs_pin st' = cs_pin st.

(** Modelled from the spec: [spi_set_baudrate] belongs to the Pico SDK, which
    is not among the sources.  The specification has the clock-divider logic
    answer a request with the closest achievable frequency that does not
    exceed it, a frequency above zero.  [divider_honours f]: the divider of
    the board does so for the request [f]. *)
Definition divider_honours {board : Board} (f : N) : Prop :=
  0 < spi_divider f <= f.

(** The index the session records: [cs_pin] counted from [SPI_CS_0]. *)
Definition chip_select_index (st : state) : N := cs_pin st - SPI_CS_0.

(** What holds of the state a computation returned; false if it blocks. *)
Definition after {A} (r : option (A * state)) (P : A -> state -> Prop) : Prop :=
  match r with
  | Some (a, st') => P a st'
  | None => False
  end.


(** ** Vocabulary of the further properties *)

(** The bytes a list of events shows the firmware to have read. *)
Definition rx_bytes (ev : list usb_event) : list byte :=
  flat_map (fun e => match e with Rx b => [b] | Tx _ => [] end) ev.

(** [c'] comes after [c]: events were added at the end of the log, and the
    bytes these show as read are the bytes gone from the front of what the
    host had left to be read. *)
Definition cdc_advances (c c' : cdc) : Prop :=
  exists ev, usb_log c' = usb_log c ++ ev
             /\ rx_stream c = rx_bytes ev ++ rx_stream c'.

(** A computation that, when it returns, has only advanced the channel. *)
Definition advances {A} (m : M A) : Prop :=
  forall st a st', m st = Some (a, st') -> cdc_advances (usb st) (usb st').

(** What the bus controller is made of: the flag, the recorded line, the
    pads, and whether the peripheral is up. *)
Definition bus_view (st : state) : N * N * gpio_bank * bool :=
  (spi_enabled st, cs_pin st, gpio st, spi_up (spi_hw st)).

(** A computation that, when it returns, has left the bus controller alone. *)
Definition keeps_bus {A} (m : M A) : Prop :=
  forall st a st', m st = Some (a, st') -> bus_view st' = bus_view st.

(** The bus as [enable_spi] sets it up for the default line. *)
Definition bus_enabled_cfg (st : state) : Prop :=
  spi_enabled st = 1 /\ spi_up (spi_hw st) = true
  /\ driven_high (gpio st SPI_CS_0)
  /\ input_pulled_up (gpio st (SPI_CS_0 + 1))
  /\ input_pulled_up (gpio st (SPI_CS_0 + 2))
  /\ input_pulled_up (gpio st (SPI_CS_0 + 3))
  /\ pad_function (gpio st SPI_SCK) = GPIO_FUNC_SPI
  /\ pad_function (gpio st SPI_MOSI) = GPIO_FUNC_SPI
  /\ pad_function (gpio st SPI_MISO) = GPIO_FUNC_SPI.

(** The bus as [disable_spi] leaves it. *)
Definition bus_disabled_cfg (st : state) : Prop :=
  spi_enabled st = 0 /\ spi_up (spi_hw st) = false
  /\ forall p, SPI_SCK <= p < SPI_CS_0 + NUM_CS_AVAILABLE ->
               neutral_input (gpio st p).

Definition bus_consistent (st : state) : Prop :=
  cs_pin st = SPI_CS_0 /\ (bus_enabled_cfg st \/ bus_disabled_cfg st).

(** The commands that are answered without looking at the state, each with
    its answer. *)
Definition fixed_replies : list (N * list byte) :=
  [ (S_CMD_NOP, [u8 S_ACK]);
    (S_CMD_Q_IFACE, [u8 S_ACK; x01; x00]);
    (S_CMD_Q_CMDMAP, u8 S_ACK :: cmdmap_bytes);
    (S_CMD_Q_PGMNAME, u8 S_ACK :: progname);
    (S_CMD_Q_SERBUF, [u8 S_ACK; xff; xff]);
    (S_CMD_Q_BUSTYPE, [u8 S_ACK; x08]) ].

(** A computation that, from any state, returns having sent [bs] and done
    nothing else. *)
Definition replies {board : Board} (m : M unit) (bs : list byte) : Prop :=
  forall st, exists c',
    m st = Some (tt, set_usb st c')
    /\ usb_moved (usb st) c' (map Tx bs) (rx_stream (usb st)).

(** * A board, to run the firmware on *)

(** A divider that halves a 125 MHz clock an integral number of times over:
    the highest rate [clk / (2 * k)] that does not exceed the request. *)
Definition even_divider (clk f : N) : N :=
  clk / (2 * ((clk + 2 * f - 1) / (2 * f))).

Definition example_board : Board := {|
  spi_divider := even_divider 125000000;
  spi_miso := fun k => u8 (0xC2 + k);
  tx_bufsize := 64
|}.

(** A pad after reset: not connected to a function, input, pulled down. *)
Definition pad_reset : pad :=
  mkPad GPIO_FUNC_NULL GPIO_IN false false true GPIO_DRIVE_STRENGTH_4MA.

Definition spi_reset : pl022 := mkSpi false 0 [] 0.

(** The channel of a host that sends [packets], before anything was read. *)
Definition host_sends (packets : list (list byte)) : cdc := mkCdc [] packets 0 [].

(** The firmware on entry to the command loop, facing that host. *)
Definition boot (packets : list (list byte)) : state :=
  @main_setup example_board (fun _ => pad_reset) spi_reset (host_sends packets).

(** An SPI operation that writes 4100 bytes and reads 4099, one buffer and a
    little more each way, sent by the host in packets that cut across the
    length fields and the data; a NOP follows. *)
Definition long_spiop : list (list byte) :=
  [ [x04; x10]; [x00; x03; x10; x00] ++ repeat x5a 100; [];
    repeat x5a 4000; [x00] ].

(** * Properties *)

(** ** Bytes *)

Lemma to_N_u8 n : Byte.to_N (u8 n) = n mod 256.
Proof.
  unfold u8. destruct (Byte.of_N (n mod 256)) as [b|] eqn:E.
  - apply Byte.to_of_N. exact E.
  - apply Byte.of_N_None_iff in E.
    assert (n mod 256 < 256) by (apply N.mod_upper_bound; discriminate). lia.
Qed.

Lemma length_le_bytes k n : length (le_bytes k n) = k.
Proof. revert n. induction k as [|k IH]; intros n; simpl; [|rewrite IH]; reflexivity. Qed.

Lemma le_value_le_bytes k n : le_value (le_bytes k n) = n mod 256 ^ N.of_nat k.
Proof.
  revert n. induction k as [|k IH]; intros n.
  - simpl. rewrite N.mod_1_r. reflexivity.
  - cbn [le_bytes le_value]. rewrite to_N_u8, IH.
    rewrite Nat2N.inj_succ, N.pow_succ_r'.
    rewrite (N.Div0.mod_mul_r n 256 (256 ^ N.of_nat k)). reflexivity.
Qed.

Lemma le_value_bound bs : le_value bs < 256 ^ N.of_nat (length bs).
Proof.
  induction bs as [|b bs IH].
  - simpl. lia.
  - cbn [le_value length]. rewrite Nat2N.inj_succ, N.pow_succ_r'.
    pose proof (Byte.to_N_bounded b). lia.
Qed.

(** ** Transport *)

Section TransportFacts.

Context {board : Board}.

Lemma readbytes_blocking_step len c :
  readbytes_blocking len c =
  if len =? 0 then Some ([], c)
  else match wait_for_read c with
       | None => None
       | Some c1 =>
           let (bs, c2) := tud_cdc_n_read len c1 in
           option_map (fun r => (bs ++ fst r, snd r))
                      (readbytes_blocking (len - N.of_nat (length bs)) c2)
       end.
Proof.
  funelim (readbytes_blocking len c);
    destruct (N.eqb_spec len 0); try contradiction; try reflexivity;
    repeat match goal with
           | E : wait_for_read _ = _ |- _ => rewrite E
           | E : tud_cdc_n_read _ _ = _ |- _ => rewrite E
           end; reflexivity.
Qed.

Lemma sendbytes_blocking_step bs c :
  sendbytes_blocking bs c =
  match bs with
  | [] => Some c
  | _ :: _ =>
      match wait_for_write c with
      | None => None
      | Some c1 =>
          let (w, c2) := tud_cdc_n_write bs c1 in
          sendbytes_blocking (skipn (N.to_nat w) bs) c2
      end
  end.
Proof.
  funelim (sendbytes_blocking bs c); try reflexivity;
    repeat match goal with
           | E : wait_for_write _ = _ |- _ => rewrite E
           | E : tud_cdc_n_write _ _ = _ |- _ => rewrite E
           end; reflexivity.
Qed.

(** A service step neither loses nor reorders the host's bytes, and logs
    nothing. *)
Lemma tud_task_stream c : rx_stream (tud_task c) = rx_stream c.
Proof.
  unfold tud_task, rx_stream. destruct (rx_pending c) as [|p ps]; simpl.
  - reflexivity.
  - rewrite app_assoc. reflexivity.
Qed.

Lemma tud_task_log c : usb_log (tud_task c) = usb_log c.
Proof. unfold tud_task. destruct (rx_pending c); reflexivity. Qed.

(** With no packet left and an empty transmit FIFO a service step is the
    identity: this is why [poll_until] may stop after as many steps as there
    are packets, and one more. *)
Lemma tud_task_idle c :
  rx_pending c = [] -> tx_queued c = 0 -> tud_task c = c.
Proof.
  destruct c as [f p q l]. simpl. intros -> ->. reflexivity.
Qed.

Lemma poll_until_ready ready steps c c' :
  poll_until ready steps c = Some c' -> ready c' = true.
Proof.
  revert c. induction steps as [|k IH]; intros c; simpl; [discriminate|].
  destruct (ready (tud_task c)) eqn:E.
  - intros [= <-]. exact E.
  - apply IH.
Qed.

Lemma poll_until_frame ready steps c c' :
  poll_until ready steps c = Some c' ->
  rx_stream c' = rx_stream c /\ usb_log c' = usb_log c.
Proof.
  revert c. induction steps as [|k IH]; intros c; simpl; [discriminate|].
  destruct (ready (tud_task c)) eqn:E.
  - intros [= <-]. split; [apply tud_task_stream | apply tud_task_log].
  - intros H. apply IH in H. rewrite tud_task_stream, tud_task_log in H. exact H.
Qed.

(** [wait_for_read] returns exactly when the host has a byte to give. *)
Lemma wait_for_read_some c :
  rx_stream c <> [] -> exists c1, wait_for_read c = Some c1.
Proof.
  unfold wait_for_read, rx_stream.
  destruct c as [f p q l]. cbn [rx_fifo rx_pending].
  revert f q. induction p as [|pk ps IH]; intros f q Hne.
  - simpl in Hne. rewrite app_nil_r in Hne.
    cbn. unfold tud_cdc_n_available. cbn.
    destruct f; [contradiction|]. eexists. reflexivity.
  - cbn [length poll_until].
    change (tud_task (mkCdc f (pk :: ps) q l)) with (mkCdc (f ++ pk) ps 0 l).
    destruct (negb (tud_cdc_n_available (mkCdc (f ++ pk) ps 0 l) =? 0)) eqn:E.
    + eexists. reflexivity.
    + apply (IH (f ++ pk) 0).
      rewrite <- app_assoc. exact Hne.
Qed.

Lemma wait_for_read_none c :
  rx_stream c = [] -> wait_for_read c = None.
Proof.
  intros Hs. destruct (wait_for_read c) as [c1|] eqn:E; [|reflexivity].
  unfold wait_for_read in E.
  pose proof (poll_until_ready _ _ _ _ E) as Hr.
  apply poll_until_frame in E. destruct E as [E _].
  rewrite Hs in E. unfold rx_stream in E. apply app_eq_nil in E.
  destruct E as [E _]. unfold tud_cdc_n_available in Hr. rewrite E in Hr.
  discriminate.
Qed.

Lemma write_available_after_task c :
  tud_cdc_n_write_available (tud_task c) = N.pos tx_bufsize.
Proof.
  unfold tud_cdc_n_write_available, tud_task.
  destruct (rx_pending c); cbn; reflexivity.
Qed.

(** [wait_for_write] returns after one service step. *)
Lemma wait_for_write_some c : wait_for_write c = Some (tud_task c).
Proof.
  unfold wait_for_write. cbn [poll_until].
  rewrite write_available_after_task. reflexivity.
Qed.

Lemma tud_cdc_n_read_prefix len c bs c2 :
  tud_cdc_n_read len c = (bs, c2) ->
  rx_fifo c <> [] -> len <> 0 ->
  bs <> [] /\ (length bs <= N.to_nat len)%nat /\
  rx_stream c = bs ++ rx_stream c2 /\ usb_log c2 = usb_log c ++ map Rx bs.
Proof.
  unfold tud_cdc_n_read. intros [= <- <-] Hf Hlen.
  unfold rx_stream. cbn [rx_fifo rx_pending usb_log].
  repeat split.
  - destruct (rx_fifo c); [contradiction|].
    destruct (N.to_nat len) eqn:E; [lia|]. discriminate.
  - rewrite length_firstn. lia.
  - rewrite app_assoc, firstn_skipn. reflexivity.
Qed.

(** [readbytes_blocking(b, len)] returns the next [len] bytes of the host,
    whatever the packets they come in, and takes no byte more. *)
Lemma readbytes_blocking_exact bs rest c :
  rx_stream c = bs ++ rest ->
  exists c', readbytes_blocking (N.of_nat (length bs)) c = Some (bs, c')
             /\ usb_moved c c' (map Rx bs) rest.
Proof.
  remember (length bs) as n eqn:Hn. revert bs rest c Hn.
  induction n as [n IH] using lt_wf_ind. intros bs rest c Hn Hs.
  rewrite readbytes_blocking_step.
  destruct bs as [|b bs'].
  - subst n. simpl. eexists. split; [reflexivity|].
    split; [exact Hs | simpl; rewrite app_nil_r; reflexivity].
  - assert (Hn0 : N.of_nat n <> 0) by (subst n; simpl; lia).
    destruct (N.eqb_spec (N.of_nat n) 0) as [|_]; [contradiction|].
    destruct (wait_for_read_some c) as [c1 Hw]; [rewrite Hs; discriminate|].
    rewrite Hw. unfold wait_for_read in Hw.
    pose proof (poll_until_ready _ _ _ _ Hw) as Hrdy.
    apply poll_until_frame in Hw. destruct Hw as [Hs1 Hl1].
    assert (Hf : rx_fifo c1 <> []).
    { unfold tud_cdc_n_available in Hrdy. destruct (rx_fifo c1); [discriminate|].
      discriminate. }
    destruct (tud_cdc_n_read (N.of_nat n) c1) as [f1 c2] eqn:Hrd.
    destruct (tud_cdc_n_read_prefix _ _ _ _ Hrd Hf Hn0) as (Hne & Hle & Hs2 & Hl2).
    rewrite Nat2N.id in Hle.
    rewrite Hs1, Hs in Hs2.
    (* the bytes read are a prefix of the bytes asked for *)
    assert (Hsplit : exists l, b :: bs' = f1 ++ l /\ rx_stream c2 = l ++ rest).
    { apply app_eq_app in Hs2. destruct Hs2 as [l [[H1 H2] | [H1 H2]]].
      - exists l. split; assumption.
      - assert (l = []).
        { apply (f_equal (@length byte)) in H1. rewrite length_app in H1.
          destruct l; [reflexivity|]. cbn [length] in *. lia. }
        subst l. rewrite app_nil_r in H1. simpl in H2.
        exists []. rewrite app_nil_r. split; [symmetry; exact H1 | symmetry; exact H2]. }
    destruct Hsplit as (l & Hbs & Hs3).
    assert (Hlen : n = (length f1 + length l)%nat).
    { rewrite Hn, Hbs, length_app. reflexivity. }
    assert (Hpos : (0 < length f1)%nat) by (destruct f1; [contradiction | simpl; lia]).
    replace (N.of_nat n - N.of_nat (length f1)) with (N.of_nat (length l)) by lia.
    destruct (IH (length l) ltac:(lia) l rest c2 eq_refl Hs3) as (c3 & Hrec & Hm3 & Hl3).
    rewrite Hrec. cbn [option_map fst snd]. rewrite <- Hbs.
    exists c3. split; [reflexivity|]. split; [exact Hm3|].
    rewrite Hl3, Hl2, Hl1, Hbs, map_app, app_assoc. reflexivity.
Qed.

(** Short of bytes, [readbytes_blocking] never returns. *)
Lemma readbytes_blocking_starved len c :
  (length (rx_stream c) < N.to_nat len)%nat -> readbytes_blocking len c = None.
Proof.
  remember (N.to_nat len) as n eqn:Hn. revert len c Hn.
  induction n as [n IH] using lt_wf_ind. intros len c Hn Hlt.
  rewrite readbytes_blocking_step.
  destruct (N.eqb_spec len 0) as [->|Hlen]; [simpl in Hn; lia|].
  destruct (wait_for_read c) as [c1|] eqn:Hw; [|reflexivity].
  unfold wait_for_read in Hw.
  pose proof (poll_until_ready _ _ _ _ Hw) as Hrdy.
  apply poll_until_frame in Hw. destruct Hw as [Hs1 _].
  assert (Hf : rx_fifo c1 <> []).
  { unfold tud_cdc_n_available in Hrdy. destruct (rx_fifo c1); discriminate. }
  destruct (tud_cdc_n_read len c1) as [f1 c2] eqn:Hrd.
  destruct (tud_cdc_n_read_prefix _ _ _ _ Hrd Hf Hlen) as (Hne & Hle & Hs2 & _).
  assert (Hpos : (0 < length f1)%nat) by (destruct f1; [contradiction | simpl; lia]).
  rewrite Hs1 in Hs2. rewrite Hs2, length_app in Hlt.
  rewrite (IH (N.to_nat (len - N.of_nat (length f1)))); [reflexivity| lia | reflexivity | lia].
Qed.

Lemma readbyte_blocking_exact b rest c :
  rx_stream c = b :: rest ->
  exists c', readbyte_blocking c = Some (b, c') /\ usb_moved c c' [Rx b] rest.
Proof.
  intros Hs. unfold readbyte_blocking.
  destruct (wait_for_read_some c) as [c1 Hw]; [rewrite Hs; discriminate|].
  rewrite Hw. unfold wait_for_read in Hw.
  pose proof (poll_until_ready _ _ _ _ Hw) as Hrdy.
  apply poll_until_frame in Hw. destruct Hw as [Hs1 Hl1].
  unfold tud_cdc_n_available in Hrdy.
  rewrite Hs in Hs1. unfold rx_stream in Hs1.
  unfold tud_cdc_n_read. cbn [N.to_nat Pos.to_nat Pos.iter_op Nat.add].
  destruct (rx_fifo c1) as [|b1 f] eqn:Ef; [discriminate|].
  simpl in Hs1. injection Hs1 as -> Hrest.
  cbn [firstn skipn]. eexists. split; [reflexivity|].
  split.
  - unfold rx_stream. cbn [rx_fifo rx_pending]. exact Hrest.
  - cbn [usb_log map]. rewrite Hl1. reflexivity.
Qed.

Lemma skipn_length_firstn {A} k (l : list A) :
  skipn (length (firstn k l)) l = skipn k l.
Proof.
  revert l. induction k as [|k IH]; intros [|x l]; simpl; try reflexivity.
  apply IH.
Qed.

Lemma tud_cdc_n_write_frame bs c w c2 :
  tud_cdc_n_write bs c = (w, c2) ->
  w = N.of_nat (length (firstn (N.to_nat (tud_cdc_n_write_available c)) bs)) /\
  rx_stream c2 = rx_stream c /\
  usb_log c2 = usb_log c ++ map Tx (firstn (N.to_nat (tud_cdc_n_write_available c)) bs).
Proof.
  unfold tud_cdc_n_write. intros [= <- <-]. repeat split.
Qed.

(** [sendbytes_blocking(b, len)] queues the [len] bytes, in order, however
    small the transmit FIFO is, and reads nothing. *)
Lemma sendbytes_blocking_exact bs c :
  exists c', sendbytes_blocking bs c = Some c'
             /\ usb_moved c c' (map Tx bs) (rx_stream c).
Proof.
  remember (length bs) as n eqn:Hn. revert bs c Hn.
  induction n as [n IH] using lt_wf_ind. intros bs c Hn.
  rewrite sendbytes_blocking_step.
  destruct bs as [|b bs'].
  - exists c. split; [reflexivity|]. split; [reflexivity|].
    simpl. rewrite app_nil_r. reflexivity.
  - rewrite wait_for_write_some.
    destruct (tud_cdc_n_write (b :: bs') (tud_task c)) as [w c2] eqn:Hw.
    apply tud_cdc_n_write_frame in Hw. destruct Hw as (-> & Hs2 & Hl2).
    rewrite write_available_after_task in *.
    rewrite Nat2N.id, skipn_length_firstn.
    set (k := N.to_nat (N.pos tx_bufsize)) in *.
    assert (Hk : (0 < k)%nat) by (subst k; lia).
    assert (Hshort : (length (skipn k (b :: bs')) < n)%nat).
    { rewrite length_skipn, Hn. cbn [length]. lia. }
    destruct (IH _ Hshort (skipn k (b :: bs')) c2 eq_refl) as (c3 & Hrec & Hs3 & Hl3).
    exists c3. split; [exact Hrec|]. split.
    + rewrite Hs3, Hs2. apply tud_task_stream.
    + rewrite Hl3, Hl2, tud_task_log, <- app_assoc, <- map_app, firstn_skipn.
      reflexivity.
Qed.

Lemma sendbyte_blocking_exact b c :
  exists c', sendbyte_blocking b c = Some c'
             /\ usb_moved c c' [Tx b] (rx_stream c).
Proof.
  unfold sendbyte_blocking. rewrite wait_for_write_some.
  eexists. split; [reflexivity|].
  unfold tud_cdc_n_write. rewrite write_available_after_task.
  destruct (N.to_nat (N.pos tx_bufsize)) as [|k] eqn:E; [lia|].
  cbn [firstn length snd]. split.
  - unfold rx_stream. cbn [rx_fifo rx_pending]. apply tud_task_stream.
  - cbn [usb_log map]. rewrite tud_task_log, firstn_nil. reflexivity.
Qed.

End TransportFacts.

(** ** Handlers *)

Section HandlerFacts.

Context {board : Board}.

Lemma bind_some {A B} (m : M A) (k : A -> M B) st a st1 :
  m st = Some (a, st1) -> bind m k st = k a st1.
Proof. unfold bind. intros ->. reflexivity. Qed.

Lemma on_usb_readbytes bs rest st :
  rx_stream (usb st) = bs ++ rest ->
  exists c', on_usb (readbytes_blocking (N.of_nat (length bs))) st
             = Some (bs, set_usb st c')
             /\ usb_moved (usb st) c' (map Rx bs) rest.
Proof.
  intros Hs. destruct (readbytes_blocking_exact bs rest (usb st) Hs) as (c' & Hr & Hm).
  exists c'. unfold on_usb. rewrite Hr. split; [reflexivity | exact Hm].
Qed.

Lemma on_usb_readbyte b rest st :
  rx_stream (usb st) = b :: rest ->
  exists c', on_usb readbyte_blocking st = Some (b, set_usb st c')
             /\ usb_moved (usb st) c' [Rx b] rest.
Proof.
  intros Hs. destruct (readbyte_blocking_exact b rest (usb st) Hs) as (c' & Hr & Hm).
  exists c'. unfold on_usb. rewrite Hr. split; [reflexivity | exact Hm].
Qed.

Lemma on_usb_sendbytes bs st :
  exists c', on_usb_ (sendbytes_blocking bs) st = Some (tt, set_usb st c')
             /\ usb_moved (usb st) c' (map Tx bs) (rx_stream (usb st)).
Proof.
  destruct (sendbytes_blocking_exact bs (usb st)) as (c' & Hr & Hm).
  exists c'. unfold on_usb_. rewrite Hr. split; [reflexivity | exact Hm].
Qed.

Lemma send_exact n st :
  exists c', send n st = Some (tt, set_usb st c')
             /\ usb_moved (usb st) c' [Tx (u8 n)] (rx_stream (usb st)).
Proof.
  destruct (sendbyte_blocking_exact (u8 n) (usb st)) as (c' & Hr & Hm).
  exists c'. unfold send, on_usb_. rewrite Hr. split; [reflexivity | exact Hm].
Qed.

Lemma spiop_write_step wlen st :
  spiop_write wlen st =
  if wlen =? 0 then Some (tt, st)
  else let cur := N.min wlen BUF_SIZE in
       match on_usb (readbytes_blocking cur) st with
       | None => None
       | Some (buf, st1) =>
           spiop_write (wlen - cur)
                       (set_spi_hw st1 (spi_write_blocking buf (spi_hw st1)))
       end.
Proof.
  funelim (spiop_write wlen st);
    destruct (N.eqb_spec wlen 0); try contradiction; reflexivity.
Qed.

Lemma spiop_read_step rlen st :
  spiop_read rlen st =
  if rlen =? 0 then Some (tt, st)
  else let cur := N.min rlen BUF_SIZE in
       let (buf, s) := spi_read_blocking x00 cur (spi_hw st) in
       match on_usb_ (sendbytes_blocking buf) (set_spi_hw st s) with
       | None => None
       | Some (_, st1) => spiop_read (rlen - cur) st1
       end.
Proof.
  funelim (spiop_read rlen st);
    destruct (N.eqb_spec rlen 0); try contradiction; reflexivity.
Qed.

(** The write loop takes exactly the [wlen] bytes that follow from the host,
    a buffer at a time, and shifts them out in the order received. *)
Lemma spiop_write_exact data rest st :
  rx_stream (usb st) = data ++ rest ->
  exists st', spiop_write (N.of_nat (length data)) st = Some (tt, st')
    /\ globals_kept st st' /\ gpio st' = gpio st
    /\ spi_shifted (spi_hw st) (spi_hw st') data
    /\ usb_moved (usb st) (usb st') (map Rx data) rest.
Proof.
  remember (length data) as n eqn:Hn. revert data rest st Hn.
  induction n as [n IH] using lt_wf_ind. intros data rest st Hn Hs.
  rewrite spiop_write_step.
  destruct (N.eqb_spec (N.of_nat n) 0) as [H0|H0].
  - assert (data = []) by (destruct data; [reflexivity | simpl in Hn; lia]).
    subst data. exists st. split; [reflexivity|].
    repeat split; simpl; rewrite ?app_nil_r, ?N.add_0_r; auto.
  - cbv zeta.
    set (k := N.to_nat (N.min (N.of_nat n) BUF_SIZE)).
    assert (Hk : (0 < k <= n)%nat) by (subst k; unfold BUF_SIZE; lia).
    assert (Hchunk : length (firstn k data) = k) by (rewrite length_firstn; lia).
    assert (Hcur : N.min (N.of_nat n) BUF_SIZE = N.of_nat (length (firstn k data))).
    { rewrite Hchunk. subst k. rewrite N2Nat.id. reflexivity. }
    rewrite Hcur.
    destruct (on_usb_readbytes (firstn k data) (skipn k data ++ rest) st)
      as (c1 & Hr & Hs1 & Hl1).
    { rewrite app_assoc, firstn_skipn. exact Hs. }
    rewrite Hr.
    replace (N.of_nat n - N.of_nat (length (firstn k data)))
      with (N.of_nat (length (skipn k data)))
      by (rewrite Hchunk, length_skipn; lia).
    assert (Hlt : (length (skipn k data) < n)%nat) by (rewrite length_skipn; lia).
    destruct (IH _ Hlt (skipn k data) rest
                 (set_spi_hw (set_usb st c1)
                    (spi_write_blocking (firstn k data) (spi_hw (set_usb st c1))))
                 eq_refl Hs1)
      as (st' & Hrec & Hg & Hp & Hsp & Hs2 & Hl2).
    exists st'. split; [exact Hrec|].
    destruct Hg as (Hg1 & Hg2 & Hg3). destruct Hsp as (Hu & Hb & Hm & Hc).
    cbn in Hg1, Hg2, Hg3, Hp, Hu, Hb, Hm, Hc, Hl2.
    repeat split; try assumption.
    + rewrite Hm, <- app_assoc, firstn_skipn. reflexivity.
    + rewrite Hc, <- N.add_assoc, <- Nat2N.inj_add, <- length_app, firstn_skipn.
      reflexivity.
    + rewrite Hl2, Hl1, <- app_assoc, <- map_app, firstn_skipn. reflexivity.
Qed.

(** Short of bytes, the write loop never ends. *)
Lemma spiop_write_starved wlen st :
  (length (rx_stream (usb st)) < N.to_nat wlen)%nat -> spiop_write wlen st = None.
Proof.
  remember (N.to_nat wlen) as n eqn:Hn. revert wlen st Hn.
  induction n as [n IH] using lt_wf_ind. intros wlen st Hn Hlt.
  rewrite spiop_write_step.
  destruct (N.eqb_spec wlen 0) as [->|H0]; [simpl in Hn; lia|].
  cbv zeta. set (cur := N.min wlen BUF_SIZE).
  assert (Hcur : 0 < cur <= wlen) by (subst cur; unfold BUF_SIZE; lia).
  destruct (Nat.lt_ge_cases (length (rx_stream (usb st))) (N.to_nat cur)) as [Hs|Hs].
  - unfold on_usb. rewrite (readbytes_blocking_starved _ _ Hs). reflexivity.
  - set (k := N.to_nat cur) in *.
    assert (Hchunk : length (firstn k (rx_stream (usb st))) = k)
      by (rewrite length_firstn; lia).
    destruct (on_usb_readbytes (firstn k (rx_stream (usb st)))
                (skipn k (rx_stream (usb st))) st) as (c1 & Hr & Hs1 & _).
    { rewrite firstn_skipn. reflexivity. }
    rewrite Hchunk in Hr. subst k. rewrite N2Nat.id in Hr. rewrite Hr.
    apply (IH (N.to_nat (wlen - cur))); [lia | reflexivity |].
    cbn [usb set_spi_hw set_usb]. rewrite Hs1, length_skipn. lia.
Qed.

Lemma miso_bytes_app n m k :
  miso_bytes (n + m) k = miso_bytes n k ++ miso_bytes m (k + N.of_nat n).
Proof.
  revert k. induction n as [|n IH]; intros k.
  - simpl. rewrite N.add_0_r. reflexivity.
  - cbn [Nat.add miso_bytes app]. rewrite IH. do 3 f_equal. lia.
Qed.

Lemma length_miso_bytes n k : length (miso_bytes n k) = n.
Proof. revert k. induction n as [|n IH]; intros k; simpl; [|rewrite IH]; reflexivity. Qed.

(** The read loop clocks in exactly [rlen] bytes, a buffer at a time, and
    sends them to the host in the order the chip gave them. *)
Lemma spiop_read_exact rlen st :
  exists st', spiop_read rlen st = Some (tt, st')
    /\ globals_kept st st' /\ gpio st' = gpio st
    /\ spi_shifted (spi_hw st) (spi_hw st') (repeat x00 (N.to_nat rlen))
    /\ usb_moved (usb st) (usb st')
         (map Tx (miso_bytes (N.to_nat rlen) (spi_clocks (spi_hw st))))
         (rx_stream (usb st)).
Proof.
  remember (N.to_nat rlen) as n eqn:Hn. revert rlen st Hn.
  induction n as [n IH] using lt_wf_ind. intros rlen st Hn.
  rewrite spiop_read_step.
  destruct (N.eqb_spec rlen 0) as [H0|H0].
  - subst rlen n. exists st. split; [reflexivity|].
    repeat split; simpl; rewrite ?app_nil_r, ?N.add_0_r; auto.
  - cbv zeta.
    set (cur := N.min rlen BUF_SIZE).
    assert (Hcur : 0 < cur <= rlen) by (subst cur; unfold BUF_SIZE; lia).
    unfold spi_read_blocking.
    match goal with
    | |- context [on_usb_ (sendbytes_blocking ?buf) ?s] =>
        destruct (on_usb_sendbytes buf s) as (c1 & Hr & Hs1 & Hl1)
    end.
    rewrite Hr. cbn [usb set_spi_hw set_usb] in Hs1, Hl1.
    assert (Hlt : (N.to_nat (rlen - cur) < n)%nat) by lia.
    match type of Hr with
    | _ = Some (_, ?st1) =>
        destruct (IH _ Hlt (rlen - cur) st1 eq_refl)
          as (st' & Hrec & Hg & Hp & Hsp & Hs2 & Hl2)
    end.
    exists st'. split; [exact Hrec|].
    destruct Hg as (Hg1 & Hg2 & Hg3). destruct Hsp as (Hu & Hb & Hm & Hc).
    cbn in Hg1, Hg2, Hg3, Hp, Hu, Hb, Hm, Hc, Hs2, Hl2.
    assert (Hsplit : n = (N.to_nat cur + N.to_nat (rlen - cur))%nat) by lia.
    repeat split; try assumption.
    + rewrite Hm, <- app_assoc, <- repeat_app, <- Hsplit. reflexivity.
    + rewrite Hc, !repeat_length. lia.
    + rewrite Hs2, Hs1. reflexivity.
    + rewrite Hl2, Hl1, <- app_assoc, <- map_app, Hsplit, miso_bytes_app, N2Nat.id.
      reflexivity.
Qed.

(** The two length fields: six bytes are read, three into each variable. *)
Lemma spiop_lengths_exact wlen0 rlen0 hw hr rest st :
  length hw = 3%nat -> length hr = 3%nat ->
  rx_stream (usb st) = hw ++ hr ++ rest ->
  exists c', spiop_lengths wlen0 rlen0 st
             = Some ((store_le (uint32 wlen0) hw, store_le (uint32 rlen0) hr),
                     set_usb st c')
             /\ usb_moved (usb st) c' (map Rx (hw ++ hr)) rest.
Proof.
  intros Hw Hr Hs. unfold spiop_lengths.
  destruct (on_usb_readbytes hw (hr ++ rest) st Hs) as (c1 & H1 & Hs1 & Hl1).
  rewrite Hw in H1. rewrite (bind_some _ _ _ _ _ H1).
  destruct (on_usb_readbytes hr rest (set_usb st c1) Hs1) as (c2 & H2 & Hs2 & Hl2).
  rewrite Hr in H2. rewrite (bind_some _ _ _ _ _ H2).
  exists c2. split; [reflexivity|]. split; [exact Hs2|].
  cbn [usb set_usb] in Hl2. rewrite Hl2, Hl1, map_app, app_assoc. reflexivity.
Qed.

(** An SPI operation whose length variables hold [w] and [r] after the
    two length fields were read takes exactly the [w] bytes that follow from
    the host, then sends one acknowledge byte, then sends exactly [r] bytes,
    those the chip shifted out; nothing else is read or sent, whether or not
    [w] or [r] exceed the 4096-byte buffer and however the host's bytes are
    cut into packets.  The bytes taken go out on the bus unchanged and in
    order, between the fall and the rise of the chip select.  ([w] and [r]
    are the 24-bit values of the length fields when the fourth bytes of the
    variables are zero, see [spiop_length_24bit].) *)
Lemma spiop_chunk_transparent wlen0 rlen0 hw hr data rest st :
  let w := store_le (uint32 wlen0) hw in
  let r := store_le (uint32 rlen0) hr in
  length hw = 3%nat -> length hr = 3%nat ->
  rx_stream (usb st) = hw ++ hr ++ data ++ rest ->
  N.of_nat (length data) = w ->
  exists st', s_cmd_o_spiop wlen0 rlen0 st = Some (tt, st')
    /\ rx_stream (usb st') = rest
    /\ usb_log (usb st') =
         usb_log (usb st) ++ map Rx (hw ++ hr) ++ map Rx data
           ++ [Tx (u8 S_ACK)]
           ++ map Tx (miso_bytes (N.to_nat r) (spi_clocks (spi_hw st) + w))
    /\ length (miso_bytes (N.to_nat r) (spi_clocks (spi_hw st) + w)) = N.to_nat r
    /\ spi_mosi (spi_hw st') = spi_mosi (spi_hw st) ++ data ++ repeat x00 (N.to_nat r)
    /\ gpio st' = cs_deselect (cs_pin st) (cs_select (cs_pin st) (gpio st))
    /\ globals_kept st st'.
Proof.
  intros w r Hhw Hhr Hs Hlen. unfold s_cmd_o_spiop.
  destruct (spiop_lengths_exact wlen0 rlen0 hw hr (data ++ rest) st Hhw Hhr Hs)
    as (c1 & H1 & Hs1 & Hl1).
  rewrite (bind_some _ _ _ _ _ H1). cbn [fst snd]. fold w r.
  set (st1 := set_usb st c1).
  rewrite (bind_some _ _ st1 tt (set_gpio st1 (cs_select (cs_pin st1) (gpio st1))))
    by reflexivity.
  set (st2 := set_gpio st1 _).
  destruct (spiop_write_exact data rest st2 Hs1)
    as (st3 & H3 & (Hg3a & Hg3b & Hg3c) & Hp3 & (Hu3 & Hb3 & Hm3 & Hc3) & Hs3 & Hl3).
  rewrite Hlen in H3. rewrite (bind_some _ _ _ _ _ H3).
  destruct (send_exact S_ACK st3) as (c4 & H4 & Hs4 & Hl4).
  unfold send in H4. rewrite (bind_some _ _ _ _ _ H4).
  destruct (spiop_read_exact r (set_usb st3 c4))
    as (st5 & H5 & (Hg5a & Hg5b & Hg5c) & Hp5 & (Hu5 & Hb5 & Hm5 & Hc5) & Hs5 & Hl5).
  rewrite (bind_some _ _ _ _ _ H5).
  eexists. split; [reflexivity|].
  cbn in Hg3a, Hg3b, Hg3c, Hp3, Hu3, Hb3, Hm3, Hc3, Hs3, Hl3.
  cbn in Hg5a, Hg5b, Hg5c, Hp5, Hu5, Hb5, Hm5, Hc5, Hs5, Hl5.
  unfold globals_kept.
  cbn [usb gpio spi_hw set_gpio set_usb spi_enabled cs_pin baud].
  repeat split.
  - rewrite Hs5, Hs4. exact Hs3.
  - rewrite Hl5, Hl4, Hl3, Hl1, Hc3, Hlen, <- !app_assoc. reflexivity.
  - apply length_miso_bytes.
  - rewrite Hm5, Hm3, <- app_assoc. reflexivity.
  - rewrite Hp5, Hp3, Hg5b, Hg3b. reflexivity.
  - rewrite Hg5a. exact Hg3a.
  - rewrite Hg5b. exact Hg3b.
  - rewrite Hg5c. exact Hg3c.
Qed.

(** [s_cmd_s_spi_freq] on a request that is not zero. *)
Lemma s_cmd_s_spi_freq_set bs rest st :
  length bs = 4%nat -> rx_stream (usb st) = bs ++ rest -> le_value bs <> 0 ->
  exists c', s_cmd_s_spi_freq st
      = Some (tt, mkState (spi_enabled st) (cs_pin st)
                          (uint32 (spi_divider (le_value bs))) (gpio st)
                          (snd (spi_set_baudrate (le_value bs) (spi_hw st))) c')
    /\ usb_moved (usb st) c'
         (map Rx bs ++ [Tx (u8 S_ACK)]
            ++ map Tx (le_bytes 4 (uint32 (spi_divider (le_value bs))))) rest.
Proof.
  intros Hlen Hs Hf. unfold s_cmd_s_spi_freq.
  destruct (on_usb_readbytes bs rest st Hs) as (c1 & H1 & Hs1 & Hl1).
  rewrite Hlen in H1. rewrite (bind_some _ _ _ _ _ H1).
  destruct (N.eqb_spec (le_value bs) 0) as [|_]; [contradiction|].
  unfold bind at 1. cbn [spi_set_baudrate].
  match goal with
  | |- context [bind _ _ ?s] => set (st2 := s)
  end.
  destruct (send_exact S_ACK st2) as (c3 & H3 & Hs3 & Hl3).
  unfold send in H3. rewrite (bind_some _ _ _ _ _ H3).
  destruct (on_usb_sendbytes (le_bytes 4 (baud (set_usb st2 c3))) (set_usb st2 c3))
    as (c4 & H4 & Hs4 & Hl4).
  rewrite H4. exists c4. split; [reflexivity|].
  cbn in Hs3, Hl3, Hs4, Hl4. split.
  - rewrite Hs4, Hs3. exact Hs1.
  - rewrite Hl4, Hl3, Hl1, <- !app_assoc. reflexivity.
Qed.

(** [s_cmd_s_spi_freq] on the reserved request 0. *)
Lemma s_cmd_s_spi_freq_zero bs rest st :
  length bs = 4%nat -> rx_stream (usb st) = bs ++ rest -> le_value bs = 0 ->
  exists c', s_cmd_s_spi_freq st = Some (tt, set_usb st c')
    /\ usb_moved (usb st) c' (map Rx bs ++ [Tx (u8 S_NAK)]) rest.
Proof.
  intros Hlen Hs Hf. unfold s_cmd_s_spi_freq.
  destruct (on_usb_readbytes bs rest st Hs) as (c1 & H1 & Hs1 & Hl1).
  rewrite Hlen in H1. rewrite (bind_some _ _ _ _ _ H1). rewrite Hf. cbn [N.eqb].
  destruct (send_exact S_NAK (set_usb st c1)) as (c2 & H2 & Hs2 & Hl2).
  unfold send in H2. rewrite H2. exists c2. split; [reflexivity|].
  cbn in Hs2, Hl2. split.
  - rewrite Hs2. exact Hs1.
  - rewrite Hl2, Hl1, <- app_assoc. reflexivity.
Qed.

(** A round of the command loop: the command byte is read, the statements
    under its label run, the transmit FIFO is flushed. *)
Lemma command_loop_round_exact wlen0 rlen0 cmd rest st :
  rx_stream (usb st) = cmd :: rest ->
  exists c1, usb_moved (usb st) c1 [Rx cmd] rest /\
    forall st2,
      run_case wlen0 rlen0 (switch (Byte.to_N cmd)) (set_usb st c1) = Some (tt, st2) ->
      command_loop_round wlen0 rlen0 st
      = Some (tt, set_usb st2 (tud_cdc_n_write_flush (usb st2))).
Proof.
  intros Hs. destruct (on_usb_readbyte cmd rest st Hs) as (c1 & H1 & Hm).
  exists c1. split; [exact Hm|]. intros st2 H2.
  unfold command_loop_round. rewrite (bind_some _ _ _ _ _ H1).
  rewrite (bind_some _ _ _ _ _ H2). reflexivity.
Qed.

Lemma flush_stream c : rx_stream (tud_cdc_n_write_flush c) = rx_stream c.
Proof. reflexivity. Qed.

Lemma flush_log c : usb_log (tud_cdc_n_write_flush c) = usb_log c.
Proof. reflexivity. Qed.

(** C6.  A set-SPI-frequency command whose four little-endian bytes give a
    request [f > 0], on a board whose clock divider honours [f]: the firmware
    sends one acknowledge byte and then the four little-endian bytes of the
    achieved frequency [a], [0 < a <= f], and [a] is the frequency it has
    stored afterwards. *)
Theorem set_spi_freq_response wlen0 rlen0 bs rest st :
  let f := le_value bs in
  let a := spi_divider f in
  length bs = 4%nat ->
  rx_stream (usb st) = u8 S_CMD_S_SPI_FREQ :: bs ++ rest ->
  0 < f -> divider_honours f ->
  exists st', command_loop_round wlen0 rlen0 st = Some (tt, st')
    /\ rx_stream (usb st') = rest
    /\ usb_log (usb st') =
         usb_log (usb st) ++ Rx (u8 S_CMD_S_SPI_FREQ) :: map Rx bs
           ++ Tx (u8 S_ACK) :: map Tx (le_bytes 4 a)
    /\ length (le_bytes 4 a) = 4%nat /\ le_value (le_bytes 4 a) = a
    /\ 0 < a <= f
    /\ baud st' = a /\ spi_baudrate (spi_hw st') = a
    /\ spi_enabled st' = spi_enabled st /\ cs_pin st' = cs_pin st.
Proof.
  intros f a Hlen Hs Hf Ha. unfold divider_honours in Ha. fold f a in Ha.
  destruct (command_loop_round_exact wlen0 rlen0 _ _ st Hs) as (c1 & (Hs1 & Hl1) & Hround).
  replace (switch (Byte.to_N (u8 S_CMD_S_SPI_FREQ))) with case_S_SPI_FREQ in Hround
    by reflexivity.
  cbn [run_case] in Hround.
  assert (Hf0 : le_value bs <> 0) by (fold f; lia).
  destruct (s_cmd_s_spi_freq_set bs rest (set_usb st c1) Hlen Hs1 Hf0)
    as (c2 & H2 & Hs2 & Hl2).
  rewrite (Hround _ H2). fold f a in Hl2 |- *.
  assert (Hu : uint32 a = a).
  { unfold uint32. apply N.mod_small.
    pose proof (le_value_bound bs) as Hb. rewrite Hlen in Hb. fold f in Hb.
    change (256 ^ N.of_nat 4) with (2 ^ 32) in Hb. lia. }
  rewrite Hu in *.
  eexists. split; [reflexivity|].
  cbn [usb set_usb spi_hw baud spi_enabled cs_pin spi_set_baudrate snd spi_baudrate].
  rewrite flush_stream, flush_log.
  repeat split; try lia.
  - exact Hs2.
  - rewrite Hl2. cbn [usb set_usb]. rewrite Hl1, <- app_assoc. reflexivity.
  - rewrite le_value_le_bytes. change (256 ^ N.of_nat 4) with (2 ^ 32). exact Hu.
Qed.

(** C7.  A set-SPI-frequency command whose four bytes give the request 0:
    the firmware sends one negative-acknowledge byte and nothing else, and
    the stored frequency, like the rest of the session and the peripheral,
    is what it was. *)
Theorem set_spi_freq_zero_response wlen0 rlen0 bs rest st :
  length bs = 4%nat ->
  rx_stream (usb st) = u8 S_CMD_S_SPI_FREQ :: bs ++ rest ->
  le_value bs = 0 ->
  exists st', command_loop_round wlen0 rlen0 st = Some (tt, st')
    /\ rx_stream (usb st') = rest
    /\ usb_log (usb st') =
         usb_log (usb st) ++ Rx (u8 S_CMD_S_SPI_FREQ) :: map Rx bs ++ [Tx (u8 S_NAK)]
    /\ baud st' = baud st /\ spi_hw st' = spi_hw st
    /\ spi_enabled st' = spi_enabled st /\ cs_pin st' = cs_pin st.
Proof.
  intros Hlen Hs Hf.
  destruct (command_loop_round_exact wlen0 rlen0 _ _ st Hs) as (c1 & (Hs1 & Hl1) & Hround).
  replace (switch (Byte.to_N (u8 S_CMD_S_SPI_FREQ))) with case_S_SPI_FREQ in Hround
    by reflexivity.
  cbn [run_case] in Hround.
  destruct (s_cmd_s_spi_freq_zero bs rest (set_usb st c1) Hlen Hs1 Hf)
    as (c2 & H2 & Hs2 & Hl2).
  rewrite (Hround _ H2).
  eexists. split; [reflexivity|].
  cbn [usb set_usb spi_hw baud spi_enabled cs_pin gpio].
  rewrite flush_stream, flush_log.
  repeat split.
  - exact Hs2.
  - rewrite Hl2. cbn [usb set_usb]. rewrite Hl1, <- app_assoc. reflexivity.
Qed.

(** C8.  A sync command is answered by exactly two bytes, negative-acknowledge
    and then acknowledge; nothing else is sent, nothing more is read, and the
    session and the peripheral stay as they were. *)
Theorem sync_response wlen0 rlen0 rest st :
  rx_stream (usb st) = u8 S_CMD_SYNCNOP :: rest ->
  exists st', command_loop_round wlen0 rlen0 st = Some (tt, st')
    /\ rx_stream (usb st') = rest
    /\ usb_log (usb st') =
         usb_log (usb st) ++ [Rx (u8 S_CMD_SYNCNOP); Tx (u8 S_NAK); Tx (u8 S_ACK)]
    /\ globals_kept st st' /\ spi_hw st' = spi_hw st.
Proof.
  intros Hs.
  destruct (command_loop_round_exact wlen0 rlen0 _ _ st Hs) as (c1 & (Hs1 & Hl1) & Hround).
  replace (switch (Byte.to_N (u8 S_CMD_SYNCNOP))) with case_SYNCNOP in Hround
    by reflexivity.
  cbn [run_case] in Hround.
  destruct (send_exact S_NAK (set_usb st c1)) as (c2 & H2 & Hs2 & Hl2).
  destruct (send_exact S_ACK (set_usb (set_usb st c1) c2)) as (c3 & H3 & Hs3 & Hl3).
  rewrite (Hround (set_usb (set_usb (set_usb st c1) c2) c3)).
  2:{ rewrite (bind_some _ _ _ _ _ H2). exact H3. }
  eexists. split; [reflexivity|].
  unfold globals_kept.
  cbn [usb set_usb spi_hw baud spi_enabled cs_pin gpio] in *.
  rewrite flush_stream, flush_log.
  repeat split.
  - rewrite Hs3, Hs2. exact Hs1.
  - rewrite Hl3, Hl2, Hl1, <- !app_assoc. reflexivity.
Qed.

(** *** Chip select *)

(** [s_cmd_s_spi_cs] on an index in range: the index is read and that is
    all.  No byte is sent and [cs_pin] is what it was. *)
Lemma s_cmd_s_spi_cs_in_range cs rest st :
  rx_stream (usb st) = cs :: rest -> Byte.to_N cs < NUM_CS_AVAILABLE ->
  exists c', s_cmd_s_spi_cs st = Some (tt, set_usb st c')
    /\ usb_moved (usb st) c' [Rx cs] rest.
Proof.
  intros Hs Hcs. unfold s_cmd_s_spi_cs.
  destruct (on_usb_readbyte cs rest st Hs) as (c1 & H1 & Hm).
  rewrite (bind_some _ _ _ _ _ H1).
  destruct (N.leb_spec NUM_CS_AVAILABLE (Byte.to_N cs)) as [Hge|_]; [lia|].
  exists c1. split; [reflexivity | exact Hm].
Qed.

(** [s_cmd_s_spi_cs] on an index out of range: one negative-acknowledge. *)
Lemma s_cmd_s_spi_cs_out_of_range cs rest st :
  rx_stream (usb st) = cs :: rest -> NUM_CS_AVAILABLE <= Byte.to_N cs ->
  exists c', s_cmd_s_spi_cs st = Some (tt, set_usb st c')
    /\ usb_moved (usb st) c' [Rx cs; Tx (u8 S_NAK)] rest.
Proof.
  intros Hs Hcs. unfold s_cmd_s_spi_cs.
  destruct (on_usb_readbyte cs rest st Hs) as (c1 & H1 & Hs1 & Hl1).
  rewrite (bind_some _ _ _ _ _ H1).
  destruct (N.leb_spec NUM_CS_AVAILABLE (Byte.to_N cs)) as [_|Hlt]; [|lia].
  destruct (send_exact S_NAK (set_usb st c1)) as (c2 & H2 & Hs2 & Hl2).
  unfold send in H2. rewrite H2. exists c2. split; [reflexivity|].
  cbn in Hs2, Hl2. split.
  - rewrite Hs2. exact Hs1.
  - rewrite Hl2, Hl1, <- app_assoc. reflexivity.
Qed.

(** Had the statements after the [return] been reached with an index in
    range, they would have recorded it and acknowledged. *)
Lemma s_cmd_s_spi_cs_tail_records cs st :
  cs < NUM_CS_AVAILABLE ->
  exists st', s_cmd_s_spi_cs_tail cs st = Some (tt, st')
    /\ cs_pin st' = SPI_CS_0 + cs
    /\ usb_log (usb st') = usb_log (usb st) ++ [Tx (u8 S_ACK)].
Proof.
  intros Hcs. unfold s_cmd_s_spi_cs_tail.
  assert (Hm : (cs + SPI_CS_0) mod 256 = SPI_CS_0 + cs).
  { unfold NUM_CS_AVAILABLE, SPI_CS_0 in *. rewrite N.mod_small; lia. }
  rewrite Hm.
  set (st1 := if negb (spi_enabled st =? 0) && negb (cs_pin st =? SPI_CS_0 + cs)
              then set_gpio st (use_cs (SPI_CS_0 + cs) (pullup_cs (cs_pin st) (gpio st)))
              else st).
  assert (H1 : forall B (k : unit -> M B),
             bind (fun st0 =>
                     if negb (spi_enabled st0 =? 0) && negb (cs_pin st0 =? SPI_CS_0 + cs)
                     then on_gpio (fun g => use_cs (SPI_CS_0 + cs)
                                              (pullup_cs (cs_pin st0) g)) st0
                     else Some (tt, st0)) k st = k tt st1).
  { intros B k. unfold bind, st1, on_gpio.
    destruct (negb (spi_enabled st =? 0) && negb (cs_pin st =? SPI_CS_0 + cs));
      reflexivity. }
  rewrite H1. unfold bind at 1.
  match goal with
  | |- context [on_usb_ _ ?s] =>
      destruct (send_exact S_ACK s) as (c2 & H2 & Hs2 & Hl2)
  end.
  unfold send in H2. rewrite H2. eexists. split; [reflexivity|].
  cbn [cs_pin usb set_usb]. split; [reflexivity|].
  rewrite Hl2. cbn [usb]. unfold st1.
  destruct (negb (spi_enabled st =? 0) && negb (cs_pin st =? SPI_CS_0 + cs));
    reflexivity.
Qed.

(** *** The two length fields of an SPI operation *)

(** The length a variable ends up with: the three bytes read, under whatever
    its fourth byte held. *)
Lemma spiop_length_value old bs :
  length bs = 3%nat ->
  store_le (uint32 old) bs = (uint32 old / 2 ^ 24) * 2 ^ 24 + le_value bs
  /\ le_value bs < 2 ^ 24.
Proof.
  intros Hlen. unfold store_le. pose proof (le_value_bound bs) as Hb.
  rewrite Hlen in *. change (256 ^ N.of_nat 3) with (2 ^ 24) in *.
  split; [reflexivity | exact Hb].
Qed.

(** It is the 24-bit value of the bytes read exactly when the fourth byte
    happened to be zero. *)
Lemma spiop_length_24bit old bs :
  length bs = 3%nat ->
  (store_le (uint32 old) bs = le_value bs <-> uint32 old < 2 ^ 24).
Proof.
  intros Hlen. destruct (spiop_length_value old bs Hlen) as [-> Hb].
  split; intros H.
  - destruct (N.lt_ge_cases (uint32 old) (2 ^ 24)) as [|Hge]; [assumption|].
    assert (1 <= uint32 old / 2 ^ 24)
      by (apply N.div_le_lower_bound; [discriminate | lia]).
    nia.
  - rewrite (N.div_small _ _ H). reflexivity.
Qed.

(** A host that sends fewer data bytes than the write length variable holds
    is never answered: the handler stays in its write loop. *)
Lemma s_cmd_o_spiop_starved wlen0 rlen0 hw hr data st :
  length hw = 3%nat -> length hr = 3%nat ->
  rx_stream (usb st) = hw ++ hr ++ data ->
  N.of_nat (length data) < store_le (uint32 wlen0) hw ->
  s_cmd_o_spiop wlen0 rlen0 st = None.
Proof.
  intros Hhw Hhr Hs Hlt. unfold s_cmd_o_spiop.
  destruct (spiop_lengths_exact wlen0 rlen0 hw hr data st Hhw Hhr Hs)
    as (c1 & H1 & Hs1 & _).
  rewrite (bind_some _ _ _ _ _ H1). cbn [fst snd].
  rewrite (bind_some _ _ (set_usb st c1) tt
             (set_gpio (set_usb st c1)
                (cs_select (cs_pin (set_usb st c1)) (gpio (set_usb st c1)))))
    by reflexivity.
  unfold bind at 1. rewrite spiop_write_starved; [reflexivity|].
  cbn [usb set_gpio set_usb]. rewrite Hs1. lia.
Qed.

(** C3.  An SPI operation whose length fields announce [w] and [r], from a
    host that sends the [w] data bytes announced and then waits.  What the
    handler does depends on the fourth bytes of its two length variables,
    which it never writes.  If that of [wlen] is not zero, the handler
    wants more than the [w] bytes and never acknowledges.  If it is zero,
    the handler takes the [w] bytes and acknowledges, and then sends [r]
    bytes plus 2^24 times the fourth byte of [rlen]: exactly [r], as
    announced, only if that byte is zero too. *)
Theorem spiop_announced_lengths wlen0 rlen0 hw hr data st :
  length hw = 3%nat -> length hr = 3%nat ->
  rx_stream (usb st) = hw ++ hr ++ data ->
  N.of_nat (length data) = le_value hw ->
  (2 ^ 24 <= uint32 wlen0 -> s_cmd_o_spiop wlen0 rlen0 st = None)
  /\ (uint32 wlen0 < 2 ^ 24 ->
      after (s_cmd_o_spiop wlen0 rlen0 st)
        (fun _ st' =>
           rx_stream (usb st') = []
           /\ exists out,
               usb_log (usb st') =
                 usb_log (usb st) ++ map Rx (hw ++ hr) ++ map Rx data
                   ++ [Tx (u8 S_ACK)] ++ map Tx out
               /\ N.of_nat (length out)
                  = (uint32 rlen0 / 2 ^ 24) * 2 ^ 24 + le_value hr
               /\ (N.of_nat (length out) = le_value hr <-> uint32 rlen0 < 2 ^ 24))).
Proof.
  intros Hhw Hhr Hs Hlen.
  destruct (spiop_length_value wlen0 hw Hhw) as [Ew Hbw].
  destruct (spiop_length_value rlen0 hr Hhr) as [Er Hbr].
  split.
  - intros Hstale.
    apply (s_cmd_o_spiop_starved wlen0 rlen0 hw hr data st Hhw Hhr Hs).
    rewrite Ew, Hlen.
    assert (1 <= uint32 wlen0 / 2 ^ 24)
      by (apply N.div_le_lower_bound; [discriminate | lia]).
    nia.
  - intros Hclean.
    assert (Ew' : store_le (uint32 wlen0) hw = le_value hw)
      by (apply spiop_length_24bit; assumption).
    destruct (spiop_chunk_transparent wlen0 rlen0 hw hr data [] st Hhw Hhr)
      as (st' & Hrun & Hrest & Hlog & Hn & _).
    + rewrite app_nil_r. exact Hs.
    + rewrite Ew'. exact Hlen.
    + rewrite Hrun. cbn [after]. split; [exact Hrest|].
      eexists. split; [exact Hlog|].
      rewrite Hn, N2Nat.id. split; [exact Er|].
      apply spiop_length_24bit. exact Hhr.
Qed.

(** *** Pads after [enable_spi] and [disable_spi] *)

Ltac pads :=
  cbv [enable_spi disable_spi for_range for_loop use_cs pullup_cs disable_pin
       gpio_init gpio_pull_up gpio_set_pulls gpio_set_function gpio_put
       gpio_set_dir gpio_set_drive_strength upd gpio cs_pin
       driven_high input_pulled_up neutral_input
       pad_dir pad_level pad_pull_up pad_pull_down pad_function
       SPI_CS_0 SPI_MISO SPI_MOSI SPI_SCK NUM_CS_AVAILABLE
       N.add N.sub N.to_nat N.eqb Pos.eqb Pos.add Pos.succ Pos.sub Pos.to_nat
       Pos.sub_mask Pos.succ_double_mask Pos.double_mask Pos.double_pred_mask
       Pos.pred_double Pos.iter_op Nat.add].

Lemma upd_other g pin f p : p <> pin -> upd g pin f p = g p.
Proof.
  intros H. unfold upd. destruct (N.eqb_spec p pin); [contradiction | reflexivity].
Qed.

(** With the default line recorded, [enable_spi] leaves it a driven output
    at high level and the three other lines inputs with pull-up. *)
Lemma enable_spi_default_cs st :
  cs_pin st = SPI_CS_0 ->
  driven_high (gpio (enable_spi st) SPI_CS_0)
  /\ input_pulled_up (gpio (enable_spi st) (SPI_CS_0 + 1))
  /\ input_pulled_up (gpio (enable_spi st) (SPI_CS_0 + 2))
  /\ input_pulled_up (gpio (enable_spi st) (SPI_CS_0 + 3)).
Proof.
  destruct st as [e cs b g s c]. cbn [cs_pin]. intros ->.
  pads. repeat split.
Qed.

(** With any line recorded, the recorded line is a driven output at high
    level, and the lines the loop visits, those above [SPI_CS_0] other than
    the recorded one, are inputs with pull-up. *)
Lemma enable_spi_cs_pads st :
  SPI_CS_0 <= cs_pin st < SPI_CS_0 + NUM_CS_AVAILABLE ->
  driven_high (gpio (enable_spi st) (cs_pin st))
  /\ forall p, SPI_CS_0 < p < SPI_CS_0 + NUM_CS_AVAILABLE -> p <> cs_pin st ->
               input_pulled_up (gpio (enable_spi st) p).
Proof.
  destruct st as [e cs b g s c]. cbn [cs_pin]. unfold SPI_CS_0, NUM_CS_AVAILABLE.
  intros Hcs.
  assert (Hc : cs = 5 \/ cs = 6 \/ cs = 7 \/ cs = 8) by lia.
  split.
  - destruct Hc as [-> | [-> | [-> | ->]]]; pads; split; reflexivity.
  - intros p Hp Hne.
    assert (Hq : p = 6 \/ p = 7 \/ p = 8) by lia.
    destruct Hc as [-> | [-> | [-> | ->]]]; destruct Hq as [-> | [-> | ->]];
      try contradiction; pads; split; reflexivity.
Qed.

(** The loop of [enable_spi] starts above [SPI_CS_0]: with another line
    recorded, nothing in [enable_spi] touches the pad of [SPI_CS_0]. *)
Lemma enable_spi_skips_cs0 st :
  SPI_CS_0 < cs_pin st ->
  gpio (enable_spi st) SPI_CS_0 = gpio st SPI_CS_0.
Proof.
  destruct st as [e cs b g s c]. cbn [cs_pin gpio]. intros Hcs.
  unfold enable_spi, for_range. cbn [gpio cs_pin].
  change (N.to_nat (SPI_CS_0 + NUM_CS_AVAILABLE - (SPI_CS_0 + 1))) with 3%nat.
  cbn [for_loop].
  unfold use_cs, pullup_cs, gpio_init, gpio_pull_up, gpio_set_pulls,
    gpio_set_function, gpio_put, gpio_set_dir, gpio_set_drive_strength.
  unfold SPI_CS_0, SPI_SCK, SPI_MOSI, SPI_MISO in *.
  rewrite !upd_other by lia. reflexivity.
Qed.

(** [disable_spi] leaves the four select lines and the three signal lines
    inputs without pulls. *)
Lemma disable_spi_pads st p :
  SPI_SCK <= p < SPI_CS_0 + NUM_CS_AVAILABLE ->
  neutral_input (gpio (disable_spi st) p).
Proof.
  destruct st as [e cs b g s c]. unfold SPI_SCK, SPI_CS_0, NUM_CS_AVAILABLE.
  intros Hp.
  assert (Hq : p = 2 \/ p = 3 \/ p = 4 \/ p = 5 \/ p = 6 \/ p = 7 \/ p = 8) by lia.
  destruct Hq as [-> | [-> | [-> | [-> | [-> | [-> | ->]]]]]];
    pads; repeat split.
Qed.

(** *** What no command changes *)

Lemma keeps_ret {A} (a : A) : keeps_cs_pin (ret a).
Proof. intros st a' st' [= _ <-]. reflexivity. Qed.

Lemma keeps_bind {A B} (m : M A) (k : A -> M B) :
  keeps_cs_pin m -> (forall a, keeps_cs_pin (k a)) -> keeps_cs_pin (bind m k).
Proof.
  intros Hm Hk st b st'. unfold bind.
  destruct (m st) as [[a st1]|] eqn:E; [|discriminate].
  intros H. rewrite (Hk _ _ _ _ H). exact (Hm _ _ _ E).
Qed.

Lemma keeps_on_usb {A} (f : cdc -> option (A * cdc)) : keeps_cs_pin (on_usb f).
Proof.
  intros st a st'. unfold on_usb.
  destruct (f (usb st)) as [[a' c]|]; [|discriminate].
  intros [= _ <-]. reflexivity.
Qed.

Lemma keeps_on_usb_ (f : cdc -> option cdc) : keeps_cs_pin (on_usb_ f).
Proof.
  intros st a st'. unfold on_usb_.
  destruct (f (usb st)) as [c|]; [|discriminate].
  intros H. inversion H. reflexivity.
Qed.

Lemma keeps_spiop_write wlen : keeps_cs_pin (spiop_write wlen).
Proof.
  remember (N.to_nat wlen) as n eqn:Hn. revert wlen Hn.
  induction n as [n IH] using lt_wf_ind. intros wlen Hn st a st'.
  rewrite spiop_write_step.
  destruct (N.eqb_spec wlen 0) as [|H0]; [intros H; inversion H; reflexivity|].
  cbv zeta.
  destruct (on_usb (readbytes_blocking (N.min wlen BUF_SIZE)) st)
    as [[buf st1]|] eqn:E; [|discriminate].
  intros H.
  eapply IH in H; [| | reflexivity]; [|unfold BUF_SIZE; lia].
  rewrite H. cbn [cs_pin set_spi_hw]. exact (keeps_on_usb _ _ _ _ E).
Qed.

Lemma keeps_spiop_read rlen : keeps_cs_pin (spiop_read rlen).
Proof.
  remember (N.to_nat rlen) as n eqn:Hn. revert rlen Hn.
  induction n as [n IH] using lt_wf_ind. intros rlen Hn st a st'.
  rewrite spiop_read_step.
  destruct (N.eqb_spec rlen 0) as [|H0]; [intros H; inversion H; reflexivity|].
  cbv zeta. unfold spi_read_blocking.
  match goal with
  | |- context [on_usb_ ?f ?s] =>
      destruct (on_usb_ f s) as [[u st1]|] eqn:E; [|discriminate]
  end.
  intros H.
  eapply IH in H; [| | reflexivity]; [|unfold BUF_SIZE; lia].
  rewrite H. exact (keeps_on_usb_ _ _ _ _ E).
Qed.

Create HintDb frame.
#[local] Hint Resolve keeps_ret keeps_on_usb keeps_on_usb_
  keeps_spiop_write keeps_spiop_read : frame.

Ltac frame_leaf :=
  let H := fresh "H" in
  intros ? ? ? H;
  first [ exact (keeps_on_usb_ _ _ _ _ H)
        | unfold on_gpio, spi_set_baudrate in H; inversion H; reflexivity ].

Ltac frame :=
  cbv zeta;
  repeat first
    [ apply keeps_bind; [|intros ?]
    | solve [auto with frame]
    | match goal with |- keeps_cs_pin (if ?b then _ else _) => destruct b end
    | frame_leaf ].

Lemma keeps_run_case wlen0 rlen0 k : keeps_cs_pin (run_case wlen0 rlen0 k).
Proof.
  destruct k; cbn [run_case];
    unfold send, s_cmd_s_bustype, s_cmd_o_spiop, spiop_lengths,
      s_cmd_s_spi_freq, s_cmd_s_pin_state, s_cmd_s_spi_cs;
    frame.
Qed.

Lemma keeps_command_loop_round wlen0 rlen0 : keeps_cs_pin (command_loop_round wlen0 rlen0).
Proof.
  unfold command_loop_round. frame. apply keeps_run_case.
Qed.

(** [cs_pin] is the default line in every state of the command loop. *)
Lemma reachable_cs_pin st : reachable st -> cs_pin st = SPI_CS_0.
Proof.
  induction 1 as [g s c | st w r st' _ IH Hround].
  - reflexivity.
  - rewrite (keeps_command_loop_round _ _ _ _ _ Hround). exact IH.
Qed.



(** C5.  In every state the command loop reaches from startup, whatever the
    commands were and whether the bus is enabled or not, the recorded chip
    select is one of the [NUM_CS_AVAILABLE] candidate lines. *)
Theorem chip_select_index_valid st :
  reachable st ->
  SPI_CS_0 <= cs_pin st /\ chip_select_index st < NUM_CS_AVAILABLE.
Proof.
  intros H. unfold chip_select_index. rewrite (reachable_cs_pin st H).
  unfold SPI_CS_0, NUM_CS_AVAILABLE. lia.
Qed.

(** *** Startup *)

(** C10.  When [main] enters the command loop, before any byte of the host
    was read, the bus is enabled: [enable_spi] has run with the default chip
    select and 12 MHz, the peripheral is up at the rate the divider gives for
    12 MHz, the default line is a driven output at high level and the other
    three are inputs with pull-up.  The statements of the first command,
    whatever it is, run in that state: only the channel moved. *)
Theorem bus_enabled_at_startup g s c :
  let st := main_setup g s c in
  (reachable st
   /\ spi_enabled st = 1 /\ cs_pin st = SPI_CS_0 /\ baud st = 12000000
   /\ spi_up (spi_hw st) = true
   /\ spi_baudrate (spi_hw st) = spi_divider 12000000
   /\ driven_high (gpio st SPI_CS_0)
   /\ input_pulled_up (gpio st (SPI_CS_0 + 1))
   /\ input_pulled_up (gpio st (SPI_CS_0 + 2))
   /\ input_pulled_up (gpio st (SPI_CS_0 + 3))
   /\ pad_function (gpio st SPI_SCK) = GPIO_FUNC_SPI
   /\ pad_function (gpio st SPI_MOSI) = GPIO_FUNC_SPI
   /\ pad_function (gpio st SPI_MISO) = GPIO_FUNC_SPI
   /\ usb st = c)
  /\ forall wlen0 rlen0 cmd rest,
       rx_stream c = cmd :: rest ->
       exists c1,
         usb_moved c c1 [Rx cmd] rest
         /\ command_loop_round wlen0 rlen0 st
            = bind (run_case wlen0 rlen0 (switch (Byte.to_N cmd)))
                   (fun _ st2 => Some (tt, set_usb st2 (tud_cdc_n_write_flush (usb st2))))
                   (set_usb st c1)
         /\ spi_enabled (set_usb st c1) = 1
         /\ spi_up (spi_hw (set_usb st c1)) = true
         /\ driven_high (gpio (set_usb st c1) (cs_pin (set_usb st c1))).
Proof.
  intros st. split.
  - split; [apply reach_setup|].
    destruct (enable_spi_default_cs (power_on g s c) eq_refl) as (H5 & H6 & H7 & H8).
    repeat split; try assumption; try apply H5.
  - intros wlen0 rlen0 cmd rest Hs.
    destruct (on_usb_readbyte cmd rest st Hs) as (c1 & H1 & Hm).
    exists c1. split; [exact Hm|]. split.
    + unfold command_loop_round. rewrite (bind_some _ _ _ _ _ H1). reflexivity.
    + destruct (enable_spi_default_cs (power_on g s c) eq_refl) as (H5 & _).
      repeat split; apply H5.
Qed.

End HandlerFacts.

(** ** The capability bitmap *)

(** C9.  For every command byte, the bit of that command in the bitmap the
    firmware sends is set exactly when the [switch] of the command loop has
    a label for the byte, that is, does not go to [default]. *)
Theorem cmdmap_matches_dispatcher (cmd : byte) :
  bitmap_bit cmdmap_bytes (Byte.to_N cmd) = true
  <-> switch (Byte.to_N cmd) <> case_default.
Proof.
  destruct cmd; vm_compute; split; congruence.
Qed.

(** * Further properties of the firmware *)

Section MoreFacts.

Context {board : Board}.

(** ** Transport *)

Lemma rx_bytes_app ev1 ev2 : rx_bytes (ev1 ++ ev2) = rx_bytes ev1 ++ rx_bytes ev2.
Proof. unfold rx_bytes. apply flat_map_app. Qed.

Lemma rx_bytes_Rx bs : rx_bytes (map Rx bs) = bs.
Proof. induction bs as [|b bs IH]; simpl; [|rewrite IH]; reflexivity. Qed.

Lemma rx_bytes_Tx bs : rx_bytes (map Tx bs) = [].
Proof. induction bs as [|b bs IH]; simpl; [|rewrite IH]; reflexivity. Qed.

(** What [readbytes_blocking] returns, when it returns. *)
Lemma readbytes_blocking_returns len c bs c' :
  readbytes_blocking len c = Some (bs, c') ->
  length bs = N.to_nat len /\ rx_stream c = bs ++ rx_stream c'
  /\ usb_log c' = usb_log c ++ map Rx bs.
Proof.
  intros Hr.
  destruct (Nat.lt_ge_cases (length (rx_stream c)) (N.to_nat len)) as [Hlt|Hge].
  - rewrite (readbytes_blocking_starved _ _ Hlt) in Hr. discriminate.
  - set (k := N.to_nat len) in *.
    assert (Hk : length (firstn k (rx_stream c)) = k) by (rewrite length_firstn; lia).
    destruct (readbytes_blocking_exact (firstn k (rx_stream c))
                (skipn k (rx_stream c)) c) as (c0 & H0 & Hs0 & Hl0).
    { rewrite firstn_skipn. reflexivity. }
    rewrite Hk in H0. subst k. rewrite N2Nat.id in H0.
    rewrite H0 in Hr. injection Hr as <- <-.
    split; [exact Hk|]. split; [|exact Hl0].
    rewrite Hs0, firstn_skipn. reflexivity.
Qed.

(** X1.  [readbytes_blocking(b, len)] returns exactly when the host has, or
    will send, [len] more bytes; it then returns the next [len] bytes in the
    order sent, whatever the packets they came in, and takes nothing beyond
    them.  With fewer bytes to come it never returns. *)
Theorem readbytes_blocking_all_or_nothing len c :
  match readbytes_blocking len c with
  | Some (bs, c') =>
      length bs = N.to_nat len /\ rx_stream c = bs ++ rx_stream c'
      /\ usb_log c' = usb_log c ++ map Rx bs
  | None => (length (rx_stream c) < N.to_nat len)%nat
  end.
Proof.
  destruct (readbytes_blocking len c) as [[bs c']|] eqn:E.
  - exact (readbytes_blocking_returns _ _ _ _ E).
  - destruct (Nat.lt_ge_cases (length (rx_stream c)) (N.to_nat len)) as [Hlt|Hge];
      [exact Hlt|].
    set (k := N.to_nat len) in *.
    assert (Hk : length (firstn k (rx_stream c)) = k) by (rewrite length_firstn; lia).
    destruct (readbytes_blocking_exact (firstn k (rx_stream c))
                (skipn k (rx_stream c)) c) as (c0 & H0 & _).
    { rewrite firstn_skipn. reflexivity. }
    rewrite Hk in H0. subst k. rewrite N2Nat.id in H0.
    rewrite H0 in E. discriminate.
Qed.

(** X3.  [wait_for_read] returns exactly when the host has a byte for the
    firmware, sent already or still to come; there is then a byte in the
    receive FIFO, and nothing was read or sent.  With no byte to come it
    spins forever. *)
Theorem wait_for_read_until_byte c :
  match wait_for_read c with
  | Some c1 =>
      rx_fifo c1 <> [] /\ rx_stream c1 = rx_stream c /\ usb_log c1 = usb_log c
  | None => rx_stream c = []
  end.
Proof.
  destruct (wait_for_read c) as [c1|] eqn:E.
  - unfold wait_for_read in E.
    pose proof (poll_until_ready _ _ _ _ E) as Hr.
    apply poll_until_frame in E. split; [|exact E].
    unfold tud_cdc_n_available in Hr. destruct (rx_fifo c1); discriminate.
  - destruct (rx_stream c) as [|b l] eqn:Hs; [reflexivity|].
    destruct (wait_for_read_some c) as [c1 H1]; [rewrite Hs; discriminate|].
    rewrite H1 in E. discriminate.
Qed.



(** X16.  The one-byte calls are the buffer calls at length 1:
    [readbyte_blocking] returns the byte [readbytes_blocking] would store
    for a length of 1, [sendbyte_blocking] queues its byte as
    [sendbytes_blocking] does a buffer of one, and each pair leaves the
    channel in the same state and blocks in the same cases. *)
Theorem byte_calls_are_length_1 c :
  readbytes_blocking 1 c
  = match readbyte_blocking c with
    | Some (b, c') => Some ([b], c')
    | None => None
    end
  /\ forall b, sendbytes_blocking [b] c = sendbyte_blocking b c.
Proof.
  split.
  - rewrite readbytes_blocking_step. cbn [N.eqb]. unfold readbyte_blocking.
    destruct (wait_for_read c) as [c1|] eqn:Hw; [|reflexivity].
    unfold wait_for_read in Hw. pose proof (poll_until_ready _ _ _ _ Hw) as Hr.
    unfold tud_cdc_n_available in Hr.
    unfold tud_cdc_n_read. cbn [N.to_nat Pos.to_nat Pos.iter_op Nat.add].
    destruct (rx_fifo c1) as [|b1 f]; [discriminate|].
    cbn [firstn skipn length]. change (1 - N.of_nat 1) with 0.
    rewrite readbytes_blocking_step. reflexivity.
  - intros b. rewrite sendbytes_blocking_step. unfold sendbyte_blocking.
    rewrite wait_for_write_some.
    destruct (tud_cdc_n_write [b] (tud_task c)) as [w c2] eqn:E.
    unfold tud_cdc_n_write in E. rewrite write_available_after_task in E.
    destruct (N.to_nat (N.pos tx_bufsize)) as [|k] eqn:Ek; [lia|].
    cbn [firstn length] in E. rewrite firstn_nil in E. cbn [length] in E.
    injection E as <- <-. cbn [snd N.to_nat N.of_nat Pos.of_succ_nat Pos.to_nat
                               Pos.iter_op Nat.add skipn].
    rewrite sendbytes_blocking_step. reflexivity.
Qed.

(** ** The channel only advances *)

Lemma cdc_advances_refl c : cdc_advances c c.
Proof. exists []. split; [rewrite app_nil_r|]; reflexivity. Qed.

Lemma cdc_advances_trans c1 c2 c3 :
  cdc_advances c1 c2 -> cdc_advances c2 c3 -> cdc_advances c1 c3.
Proof.
  intros (e1 & Hl1 & Hs1) (e2 & Hl2 & Hs2). exists (e1 ++ e2). split.
  - rewrite Hl2, Hl1, app_assoc. reflexivity.
  - rewrite Hs1, Hs2, rx_bytes_app, app_assoc. reflexivity.
Qed.

Lemma advances_ret {A} (a : A) : advances (ret a).
Proof. intros st a' st' H. inversion H. apply cdc_advances_refl. Qed.

Lemma advances_bind {A B} (m : M A) (k : A -> M B) :
  advances m -> (forall a, advances (k a)) -> advances (bind m k).
Proof.
  intros Hm Hk st b st'. unfold bind.
  destruct (m st) as [[a st1]|] eqn:E; [|discriminate].
  intros H. exact (cdc_advances_trans _ _ _ (Hm _ _ _ E) (Hk _ _ _ _ H)).
Qed.

(** A step that does not touch the channel. *)
Lemma advances_off_usb (f : state -> state) :
  (forall st, usb (f st) = usb st) -> advances (fun st => Some (tt, f st)).
Proof.
  intros Hf st a st' H. inversion H. rewrite Hf. apply cdc_advances_refl.
Qed.

Lemma advances_readbytes len : advances (on_usb (readbytes_blocking len)).
Proof.
  intros st bs st'. unfold on_usb.
  destruct (readbytes_blocking len (usb st)) as [[bs' c']|] eqn:E; [|discriminate].
  intros H. inversion H. subst. cbn [usb set_usb].
  destruct (readbytes_blocking_returns _ _ _ _ E) as (_ & Hs & Hl).
  exists (map Rx bs). rewrite rx_bytes_Rx. split; assumption.
Qed.

Lemma advances_readbyte : advances (on_usb readbyte_blocking).
Proof.
  intros st b st'. unfold on_usb.
  destruct (readbyte_blocking (usb st)) as [[b' c']|] eqn:E; [|discriminate].
  intros H. inversion H. subst. cbn [usb set_usb].
  unfold readbyte_blocking in E.
  destruct (wait_for_read (usb st)) as [c1|] eqn:Hw; [|discriminate].
  unfold wait_for_read in Hw. apply poll_until_frame in Hw. destruct Hw as [Hs1 Hl1].
  unfold tud_cdc_n_read in E. cbn [N.to_nat Pos.to_nat Pos.iter_op Nat.add] in E.
  destruct (rx_fifo c1) as [|b1 f] eqn:Ef; [discriminate|].
  cbn [firstn skipn] in E. injection E as <- <-.
  exists [Rx b1]. cbn [usb_log map rx_bytes flat_map app]. split.
  - rewrite Hl1. reflexivity.
  - rewrite <- Hs1. unfold rx_stream. rewrite Ef. reflexivity.
Qed.

Lemma advances_sendbytes bs : advances (on_usb_ (sendbytes_blocking bs)).
Proof.
  intros st u st'. unfold on_usb_.
  destruct (sendbytes_blocking_exact bs (usb st)) as (c' & Hr & Hs & Hl).
  rewrite Hr. intros H. inversion H. cbn [usb set_usb].
  exists (map Tx bs). rewrite rx_bytes_Tx. split; [exact Hl | symmetry; exact Hs].
Qed.

Lemma advances_sendbyte b : advances (on_usb_ (sendbyte_blocking b)).
Proof.
  intros st u st'. unfold on_usb_.
  destruct (sendbyte_blocking_exact b (usb st)) as (c' & Hr & Hs & Hl).
  rewrite Hr. intros H. inversion H. cbn [usb set_usb].
  exists [Tx b]. split; [exact Hl | symmetry; exact Hs].
Qed.

Lemma advances_spiop_write wlen : advances (spiop_write wlen).
Proof.
  remember (N.to_nat wlen) as n eqn:Hn. revert wlen Hn.
  induction n as [n IH] using lt_wf_ind. intros wlen Hn st a st'.
  rewrite spiop_write_step.
  destruct (N.eqb_spec wlen 0) as [|H0];
    [intros H; inversion H; apply cdc_advances_refl|].
  cbv zeta.
  destruct (on_usb (readbytes_blocking (N.min wlen BUF_SIZE)) st)
    as [[buf st1]|] eqn:E; [|discriminate].
  intros H.
  eapply IH in H; [| | reflexivity]; [|unfold BUF_SIZE; lia].
  cbn [usb set_spi_hw] in H.
  exact (cdc_advances_trans _ _ _ (advances_readbytes _ _ _ _ E) H).
Qed.

Lemma advances_spiop_read rlen : advances (spiop_read rlen).
Proof.
  remember (N.to_nat rlen) as n eqn:Hn. revert rlen Hn.
  induction n as [n IH] using lt_wf_ind. intros rlen Hn st a st'.
  rewrite spiop_read_step.
  destruct (N.eqb_spec rlen 0) as [|H0];
    [intros H; inversion H; apply cdc_advances_refl|].
  cbv zeta. unfold spi_read_blocking.
  match goal with
  | |- context [on_usb_ ?f ?s] =>
      destruct (on_usb_ f s) as [[u st1]|] eqn:E; [|discriminate]
  end.
  intros H.
  eapply IH in H; [| | reflexivity]; [|unfold BUF_SIZE; lia].
  apply advances_sendbytes in E. cbn [usb set_spi_hw] in E.
  exact (cdc_advances_trans _ _ _ E H).
Qed.

Create HintDb advance.
#[local] Hint Resolve advances_ret advances_readbytes advances_readbyte
  advances_sendbytes advances_sendbyte advances_spiop_write
  advances_spiop_read : advance.

Ltac advance_leaf :=
  first [ apply (advances_off_usb _); intros ?; reflexivity
        | let H := fresh "H" in
          intros ? ? ? H;
          first [ exact (advances_sendbytes _ _ _ _ H)
                | unfold on_gpio, spi_set_baudrate in H; inversion H;
                  apply cdc_advances_refl ] ].

Ltac advance :=
  cbv zeta;
  repeat first
    [ apply advances_bind; [|intros ?]
    | solve [auto with advance]
    | match goal with |- advances (if ?b then _ else _) => destruct b end
    | advance_leaf ].

Lemma advances_run_case wlen0 rlen0 k : advances (run_case wlen0 rlen0 k).
Proof.
  destruct k; cbn [run_case];
    unfold send, s_cmd_s_bustype, s_cmd_o_spiop, spiop_lengths,
      s_cmd_s_spi_freq, s_cmd_s_pin_state, s_cmd_s_spi_cs;
    advance.
Qed.

(** X13.  In a round of the command loop, whatever the command and however
    the round goes, the firmware only adds to what it has read and sent, the
    bytes it reads are the next bytes of the host in the order sent, none
    skipped or read twice, and the round ends with the transmit FIFO
    flushed. *)
Theorem command_loop_round_advances wlen0 rlen0 st st' :
  command_loop_round wlen0 rlen0 st = Some (tt, st') ->
  cdc_advances (usb st) (usb st') /\ tx_queued (usb st') = 0.
Proof.
  intros H. split.
  - assert (Ha : advances (command_loop_round wlen0 rlen0)).
    { unfold command_loop_round. advance.
      - apply advances_run_case.
      - intros st0 u st0' H0. inversion H0. cbn [usb set_usb].
        exists []. rewrite app_nil_r. split; reflexivity. }
    exact (Ha _ _ _ H).
  - unfold command_loop_round, bind in H.
    destruct (on_usb readbyte_blocking st) as [[cmd st1]|]; [|discriminate].
    destruct (run_case wlen0 rlen0 (switch (Byte.to_N cmd)) st1) as [[u st2]|];
      [|discriminate].
    inversion H. reflexivity.
Qed.

(** ** The bus controller *)

Lemma bind_inv {A B} (m : M A) (k : A -> M B) st b st' :
  bind m k st = Some (b, st') ->
  exists a st1, m st = Some (a, st1) /\ k a st1 = Some (b, st').
Proof.
  unfold bind. destruct (m st) as [[a st1]|]; [|discriminate].
  intros H. exists a, st1. split; [reflexivity | exact H].
Qed.

Lemma keeps_bus_ret {A} (a : A) : keeps_bus (ret a).
Proof. intros st a' st' H. inversion H. reflexivity. Qed.

Lemma keeps_bus_bind {A B} (m : M A) (k : A -> M B) :
  keeps_bus m -> (forall a, keeps_bus (k a)) -> keeps_bus (bind m k).
Proof.
  intros Hm Hk st b st' H. apply bind_inv in H. destruct H as (a & st1 & H1 & H2).
  rewrite (Hk _ _ _ _ H2). exact (Hm _ _ _ H1).
Qed.

Lemma keeps_bus_on_usb {A} (f : cdc -> option (A * cdc)) : keeps_bus (on_usb f).
Proof.
  intros st a st'. unfold on_usb.
  destruct (f (usb st)) as [[a' c]|]; [|discriminate].
  intros H. inversion H. reflexivity.
Qed.

Lemma keeps_bus_on_usb_ (f : cdc -> option cdc) : keeps_bus (on_usb_ f).
Proof.
  intros st a st'. unfold on_usb_.
  destruct (f (usb st)) as [c|]; [|discriminate].
  intros H. inversion H. reflexivity.
Qed.

Lemma keeps_bus_spiop_write wlen : keeps_bus (spiop_write wlen).
Proof.
  remember (N.to_nat wlen) as n eqn:Hn. revert wlen Hn.
  induction n as [n IH] using lt_wf_ind. intros wlen Hn st a st'.
  rewrite spiop_write_step.
  destruct (N.eqb_spec wlen 0) as [|H0]; [intros H; inversion H; reflexivity|].
  cbv zeta.
  destruct (on_usb (readbytes_blocking (N.min wlen BUF_SIZE)) st)
    as [[buf st1]|] eqn:E; [|discriminate].
  intros H.
  eapply IH in H; [| | reflexivity]; [|unfold BUF_SIZE; lia].
  rewrite H. apply keeps_bus_on_usb in E. rewrite <- E. reflexivity.
Qed.

Lemma keeps_bus_spiop_read rlen : keeps_bus (spiop_read rlen).
Proof.
  remember (N.to_nat rlen) as n eqn:Hn. revert rlen Hn.
  induction n as [n IH] using lt_wf_ind. intros rlen Hn st a st'.
  rewrite spiop_read_step.
  destruct (N.eqb_spec rlen 0) as [|H0]; [intros H; inversion H; reflexivity|].
  cbv zeta. unfold spi_read_blocking.
  match goal with
  | |- context [on_usb_ ?f ?s] =>
      destruct (on_usb_ f s) as [[u st1]|] eqn:E; [|discriminate]
  end.
  intros H.
  eapply IH in H; [| | reflexivity]; [|unfold BUF_SIZE; lia].
  rewrite H. apply keeps_bus_on_usb_ in E. rewrite E. reflexivity.
Qed.

Create HintDb bus.
#[local] Hint Resolve keeps_bus_ret keeps_bus_on_usb keeps_bus_on_usb_
  keeps_bus_spiop_write keeps_bus_spiop_read : bus.

Ltac bus_leaf :=
  let H := fresh "H" in
  intros ? ? ? H;
  first [ exact (keeps_bus_on_usb_ _ _ _ _ H)
        | unfold spi_set_baudrate in H; inversion H; reflexivity ].

Ltac bus :=
  cbv zeta;
  repeat first
    [ apply keeps_bus_bind; [|intros ?]
    | solve [auto with bus]
    | match goal with |- keeps_bus (if ?b then _ else _) => destruct b end
    | bus_leaf ].

(** Every command but the SPI operation and set-pin-state leaves the flag,
    the recorded line, the pads and the peripheral's being up as they are. *)
Lemma keeps_bus_run_case wlen0 rlen0 k :
  k <> case_O_SPIOP -> k <> case_S_PIN_STATE ->
  keeps_bus (run_case wlen0 rlen0 k).
Proof.
  intros H1 H2. destruct k; try contradiction; cbn [run_case];
    unfold send, s_cmd_s_bustype, s_cmd_s_spi_freq, s_cmd_s_spi_cs; bus.
Qed.

(** The pad of the selected line after a select and a deselect: its output
    register holds 1, the rest of it is what it was. *)
Lemma cs_pulse_pad g pin q :
  cs_deselect pin (cs_select pin g) q =
  if q =? pin
  then mkPad (pad_function (g q)) (pad_dir (g q)) true
             (pad_pull_up (g q)) (pad_pull_down (g q)) (pad_drive (g q))
  else g q.
Proof.
  unfold cs_deselect, cs_select, gpio_put, upd.
  destruct (q =? pin); reflexivity.
Qed.

(** The bus controller after an SPI operation: only the output register of
    the selected line may differ. *)
Lemma s_cmd_o_spiop_bus wlen0 rlen0 st u st' :
  s_cmd_o_spiop wlen0 rlen0 st = Some (u, st') ->
  bus_view st' =
  (spi_enabled st, cs_pin st,
   cs_deselect (cs_pin st) (cs_select (cs_pin st) (gpio st)), spi_up (spi_hw st)).
Proof.
  unfold s_cmd_o_spiop. intros H.
  apply bind_inv in H. destruct H as (lens & st1 & H1 & H).
  assert (V1 : bus_view st1 = bus_view st).
  { revert H1. unfold spiop_lengths.
    generalize st lens st1. change (keeps_bus (spiop_lengths wlen0 rlen0)).
    unfold spiop_lengths. bus. }
  apply bind_inv in H. destruct H as (u2 & st2 & H2 & H).
  unfold on_gpio in H2. inversion H2. subst u2 st2. clear H2.
  apply bind_inv in H. destruct H as (u3 & st3 & H3 & H).
  apply keeps_bus_spiop_write in H3.
  apply bind_inv in H. destruct H as (u4 & st4 & H4 & H).
  apply keeps_bus_on_usb_ in H4.
  apply bind_inv in H. destruct H as (u5 & st5 & H5 & H).
  apply keeps_bus_spiop_read in H5.
  unfold on_gpio in H. inversion H. subst u st'. clear H.
  unfold bus_view in *. cbn [spi_enabled cs_pin gpio spi_hw set_gpio] in *.
  injection V1 as E1 E2 E3 E4.
  rewrite H4 in H5. rewrite H3 in H5. injection H5 as F1 F2 F3 F4.
  rewrite F1, F2, F3, F4, E1, E2, E3, E4. reflexivity.
Qed.

(** The bus controller after set-pin-state: that of [enable_spi] or of
    [disable_spi] on the state the handler was entered in. *)
Lemma s_cmd_s_pin_state_bus st u st' :
  s_cmd_s_pin_state st = Some (u, st') ->
  bus_view st' = bus_view (enable_spi st) \/ bus_view st' = bus_view (disable_spi st).
Proof.
  unfold s_cmd_s_pin_state. intros H.
  apply bind_inv in H. destruct H as (b & st1 & H1 & H).
  apply keeps_bus_on_usb in H1.
  apply bind_inv in H. destruct H as (u2 & st2 & H2 & H).
  apply keeps_bus_on_usb_ in H. rewrite H.
  unfold bus_view in H1. injection H1 as E1 E2 E3 E4.
  destruct (Byte.to_N b =? 0); inversion H2; [right | left];
    unfold bus_view, enable_spi, disable_spi;
    cbn [spi_enabled cs_pin gpio spi_hw spi_up spi_init spi_deinit];
    rewrite ?E2, ?E3; reflexivity.
Qed.

Ltac pads :=
  cbv [enable_spi disable_spi for_range for_loop use_cs pullup_cs disable_pin
       gpio_init gpio_pull_up gpio_set_pulls gpio_set_function gpio_put
       gpio_set_dir gpio_set_drive_strength upd gpio cs_pin
       driven_high input_pulled_up neutral_input
       pad_dir pad_level pad_pull_up pad_pull_down pad_function pad_drive
       SPI_CS_0 SPI_MISO SPI_MOSI SPI_SCK NUM_CS_AVAILABLE
       N.add N.sub N.to_nat N.eqb Pos.eqb Pos.add Pos.succ Pos.sub Pos.to_nat
       Pos.sub_mask Pos.succ_double_mask Pos.double_mask Pos.double_pred_mask
       Pos.pred_double Pos.iter_op Nat.add].

(** X15.  A select followed by a deselect of a line whose output register
    held 1 puts every pad back as it was; in between, only the output
    register of that line differs, and it holds 0. *)
Theorem cs_select_deselect_restores g pin :
  pad_level (g pin) = true ->
  (forall q, cs_deselect pin (cs_select pin g) q = g q)
  /\ pad_level (cs_select pin g pin) = false
  /\ pad_dir (cs_select pin g pin) = pad_dir (g pin)
  /\ forall q, q <> pin -> cs_select pin g q = g q.
Proof.
  intros Hl. repeat split.
  - intros q. rewrite cs_pulse_pad. destruct (N.eqb_spec q pin) as [->|]; [|reflexivity].
    destruct (g pin). cbn in *. subst. reflexivity.
  - unfold cs_select, gpio_put, upd. rewrite N.eqb_refl. reflexivity.
  - unfold cs_select, gpio_put, upd. rewrite N.eqb_refl. reflexivity.
  - intros q Hq. unfold cs_select, gpio_put. apply upd_other. exact Hq.
Qed.

Lemma enable_spi_enabled_cfg st :
  cs_pin st = SPI_CS_0 -> bus_enabled_cfg (enable_spi st).
Proof.
  destruct st as [e cs b g s c]. cbn [cs_pin]. intros ->.
  unfold bus_enabled_cfg.
  split; [reflexivity|]. split; [reflexivity|].
  pads. repeat split.
Qed.

Lemma disable_spi_disabled_cfg st : bus_disabled_cfg (disable_spi st).
Proof.
  split; [reflexivity|]. split; [reflexivity|].
  intros p Hp. apply disable_spi_pads. exact Hp.
Qed.

Lemma bus_consistent_view st st' :
  bus_view st' = bus_view st -> bus_consistent st -> bus_consistent st'.
Proof.
  unfold bus_view. intros H. injection H as E1 E2 E3 E4.
  unfold bus_consistent, bus_enabled_cfg, bus_disabled_cfg.
  rewrite E1, E2, E3, E4. exact (fun H => H).
Qed.

Lemma bus_consistent_pulse st st' :
  bus_view st' =
  (spi_enabled st, cs_pin st,
   cs_deselect (cs_pin st) (cs_select (cs_pin st) (gpio st)), spi_up (spi_hw st)) ->
  bus_consistent st -> bus_consistent st'.
Proof.
  unfold bus_view. intros H. injection H as E1 E2 E3 E4.
  unfold bus_consistent, bus_enabled_cfg, bus_disabled_cfg.
  rewrite E1, E2, E3, E4. intros [Hcs Hcfg]. split; [exact Hcs|].
  rewrite Hcs.
  destruct Hcfg as [(He & Hu & (Hd & Hl) & H6 & H7 & H8 & Hf2 & Hf3 & Hf4)
                   | (He & Hu & Hn)].
  - left. rewrite !cs_pulse_pad.
    unfold SPI_CS_0, SPI_SCK, SPI_MOSI, SPI_MISO in *.
    change (5 + 1) with 6 in *. change (5 + 2) with 7 in *.
    change (5 + 3) with 8 in *.
    cbn [N.eqb Pos.eqb].
    unfold driven_high. cbn [pad_dir pad_level].
    destruct H6, H7, H8. repeat split; assumption.
  - right. split; [exact He|]. split; [exact Hu|].
    intros p Hp. specialize (Hn p Hp). rewrite cs_pulse_pad.
    destruct (p =? SPI_CS_0); [|exact Hn].
    unfold neutral_input in *. cbn [pad_dir pad_pull_up pad_pull_down]. exact Hn.
Qed.

Lemma run_case_consistent wlen0 rlen0 k st u st' :
  bus_consistent st -> run_case wlen0 rlen0 k st = Some (u, st') ->
  bus_consistent st'.
Proof.
  intros Hc H.
  assert (Hk : k = case_O_SPIOP \/ k = case_S_PIN_STATE
               \/ (k <> case_O_SPIOP /\ k <> case_S_PIN_STATE))
    by (destruct k; auto; right; right; split; discriminate).
  destruct Hk as [-> | [-> | [H1 H2]]].
  - cbn [run_case] in H. apply s_cmd_o_spiop_bus in H.
    exact (bus_consistent_pulse _ _ H Hc).
  - cbn [run_case] in H. destruct Hc as [Hcs _].
    apply s_cmd_s_pin_state_bus in H. destruct H as [H | H].
    + apply (bus_consistent_view (enable_spi st)); [exact H|].
      split; [exact Hcs | left; apply enable_spi_enabled_cfg; exact Hcs].
    + apply (bus_consistent_view (disable_spi st)); [exact H|].
      split; [exact Hcs | right; apply disable_spi_disabled_cfg].
  - apply (keeps_bus_run_case wlen0 rlen0 k H1 H2) in H.
    exact (bus_consistent_view _ _ H Hc).
Qed.

(** X12.  In every state the command loop reaches, the flag, the peripheral
    and the pads agree.  Either the bus is enabled: [spi_enabled] is 1, the
    peripheral is up, the default select line is a driven output at high
    level (no chip is left selected between commands), the three other
    select lines are inputs with pull-up and the three signal pins belong to
    the peripheral.  Or it is disabled: [spi_enabled] is 0, the peripheral
    is down and all seven pins are inputs without pulls. *)
Theorem reachable_bus_consistent st : reachable st -> bus_consistent st.
Proof.
  induction 1 as [g s c | st w r st' _ IH Hround].
  - split; [reflexivity|]. left. apply enable_spi_enabled_cfg. reflexivity.
  - unfold command_loop_round in Hround.
    apply bind_inv in Hround. destruct Hround as (cmd & st1 & H1 & H).
    apply keeps_bus_on_usb in H1.
    apply bind_inv in H. destruct H as (u & st2 & H2 & H).
    inversion H. subst st'.
    apply (bus_consistent_view st2); [reflexivity|].
    apply (run_case_consistent _ _ _ _ _ _ (bus_consistent_view _ _ H1 IH) H2).
Qed.

(** X10.  [disable_spi] makes inputs without pulls, under software control
    and with a cleared output register, of the four select lines and the
    three signal pins, whatever they were; it takes the peripheral down and
    clears the flag; it touches no other pad, and leaves the recorded line,
    the stored frequency and the channel alone. *)
Theorem disable_spi_neutral st :
  bus_disabled_cfg (disable_spi st)
  /\ (forall p, SPI_SCK <= p < SPI_CS_0 + NUM_CS_AVAILABLE ->
                pad_function (gpio (disable_spi st) p) = GPIO_FUNC_SIO
                /\ pad_level (gpio (disable_spi st) p) = false)
  /\ (forall p, ~ SPI_SCK <= p < SPI_CS_0 + NUM_CS_AVAILABLE ->
                gpio (disable_spi st) p = gpio st p)
  /\ cs_pin (disable_spi st) = cs_pin st /\ baud (disable_spi st) = baud st
  /\ usb (disable_spi st) = usb st.
Proof.
  split; [apply disable_spi_disabled_cfg|]. split; [|split; [|repeat split]].
  - destruct st as [e cs b g s c]. unfold SPI_SCK, SPI_CS_0, NUM_CS_AVAILABLE.
    intros p Hp.
    assert (Hq : p = 2 \/ p = 3 \/ p = 4 \/ p = 5 \/ p = 6 \/ p = 7 \/ p = 8) by lia.
    destruct Hq as [-> | [-> | [-> | [-> | [-> | [-> | ->]]]]]];
      pads; split; reflexivity.
  - destruct st as [e cs b g s c]. intros p Hp.
    unfold disable_spi, for_range. cbn [gpio].
    change (N.to_nat (NUM_CS_AVAILABLE - 0)) with 4%nat. cbn [for_loop].
    unfold disable_pin, gpio_init, gpio_set_pulls, gpio_set_function, gpio_put,
      gpio_set_dir.
    unfold SPI_CS_0, SPI_SCK, SPI_MOSI, SPI_MISO, NUM_CS_AVAILABLE in *.
    rewrite !upd_other by lia. reflexivity.
Qed.

(** X11.  With a candidate line recorded, [enable_spi] makes that line a
    driven output at high level with 12 mA drive, gives the three signal
    pins to the peripheral with 12 mA drive, brings the peripheral up at
    the rate the divider gives for the stored frequency and sets the flag;
    it leaves the recorded line, the stored frequency and the channel
    alone. *)
Theorem enable_spi_setup st :
  SPI_CS_0 <= cs_pin st < SPI_CS_0 + NUM_CS_AVAILABLE ->
  spi_enabled (enable_spi st) = 1
  /\ spi_up (spi_hw (enable_spi st)) = true
  /\ spi_baudrate (spi_hw (enable_spi st)) = spi_divider (baud st)
  /\ driven_high (gpio (enable_spi st) (cs_pin st))
  /\ pad_drive (gpio (enable_spi st) (cs_pin st)) = GPIO_DRIVE_STRENGTH_12MA
  /\ (forall p, SPI_SCK <= p <= SPI_MISO ->
                pad_function (gpio (enable_spi st) p) = GPIO_FUNC_SPI
                /\ pad_drive (gpio (enable_spi st) p) = GPIO_DRIVE_STRENGTH_12MA)
  /\ cs_pin (enable_spi st) = cs_pin st /\ baud (enable_spi st) = baud st
  /\ usb (enable_spi st) = usb st.
Proof.
  destruct st as [e cs b g s c]. cbn [cs_pin baud usb].
  unfold SPI_CS_0, NUM_CS_AVAILABLE, SPI_SCK, SPI_MISO. intros Hcs.
  assert (Hc : cs = 5 \/ cs = 6 \/ cs = 7 \/ cs = 8) by lia.
  split; [reflexivity|]. split; [reflexivity|]. split; [reflexivity|].
  split; [destruct Hc as [-> | [-> | [-> | ->]]]; pads; split; reflexivity|].
  split; [destruct Hc as [-> | [-> | [-> | ->]]]; pads; reflexivity|].
  split; [|repeat split].
  intros p Hp. assert (Hq : p = 2 \/ p = 3 \/ p = 4) by lia.
  destruct Hc as [-> | [-> | [-> | ->]]]; destruct Hq as [-> | [-> | ->]];
    pads; split; reflexivity.
Qed.

(** ** Commands *)

Lemma replies_send n : replies (send n) [u8 n].
Proof. intros st. apply send_exact. Qed.

Lemma replies_sendbytes bs : replies (on_usb_ (sendbytes_blocking bs)) bs.
Proof. intros st. apply on_usb_sendbytes. Qed.

Lemma replies_seq m1 m2 bs1 bs2 :
  replies m1 bs1 -> replies m2 bs2 ->
  replies (bind m1 (fun _ => m2)) (bs1 ++ bs2).
Proof.
  intros H1 H2 st.
  destruct (H1 st) as (c1 & E1 & Hs1 & Hl1).
  destruct (H2 (set_usb st c1)) as (c2 & E2 & Hs2 & Hl2).
  exists c2. rewrite (bind_some _ _ _ _ _ E1). split; [exact E2|].
  cbn [usb set_usb] in Hs2, Hl2. split.
  - rewrite Hs2. exact Hs1.
  - rewrite Hl2, Hl1, map_app, app_assoc. reflexivity.
Qed.

(** A round whose command is answered by [reply] and nothing else. *)
Lemma command_loop_round_replies wlen0 rlen0 cmd reply rest st :
  rx_stream (usb st) = cmd :: rest ->
  replies (run_case wlen0 rlen0 (switch (Byte.to_N cmd))) reply ->
  exists st', command_loop_round wlen0 rlen0 st = Some (tt, st')
    /\ rx_stream (usb st') = rest
    /\ usb_log (usb st') = usb_log (usb st) ++ Rx cmd :: map Tx reply
    /\ bus_view st' = bus_view st
    /\ baud st' = baud st /\ spi_hw st' = spi_hw st.
Proof.
  intros Hs Hr.
  destruct (command_loop_round_exact wlen0 rlen0 _ _ st Hs) as (c1 & (Hs1 & Hl1) & Hround).
  destruct (Hr (set_usb st c1)) as (c2 & E2 & Hs2 & Hl2).
  rewrite (Hround _ E2). eexists. split; [reflexivity|].
  cbn [usb set_usb] in *. rewrite flush_stream, flush_log.
  repeat split.
  - rewrite Hs2. exact Hs1.
  - rewrite Hl2, Hl1, <- app_assoc. reflexivity.
Qed.

(** X8.  NOP and the five queries are answered the same in every state and
    change nothing but the channel: an acknowledge byte, followed for the
    queries by the interface version 01 00, the 32 bytes of the command map,
    the 16 bytes of the program name, the buffer size FF FF, or the bus
    mask 08. *)
Theorem fixed_reply_commands wlen0 rlen0 cmd reply rest st :
  In (cmd, reply) fixed_replies ->
  rx_stream (usb st) = u8 cmd :: rest ->
  exists st', command_loop_round wlen0 rlen0 st = Some (tt, st')
    /\ rx_stream (usb st') = rest
    /\ usb_log (usb st') = usb_log (usb st) ++ Rx (u8 cmd) :: map Tx reply
    /\ bus_view st' = bus_view st
    /\ baud st' = baud st /\ spi_hw st' = spi_hw st.
Proof.
  intros Hin Hs. apply command_loop_round_replies; [exact Hs|].
  unfold fixed_replies in Hin. cbn [In] in Hin.
  destruct Hin as [E | [E | [E | [E | [E | [E | []]]]]]]; injection E as <- <-.
  - apply replies_send.
  - apply (replies_seq _ _ [_] [_; _]); [apply replies_send|].
    apply (replies_seq _ _ [_] [_]); apply replies_send.
  - apply (replies_seq _ _ [_] cmdmap_bytes);
      [apply replies_send | apply replies_sendbytes].
  - apply (replies_seq _ _ [_] progname);
      [apply replies_send | apply replies_sendbytes].
  - apply (replies_seq _ _ [_] [_; _]); [apply replies_send|].
    apply (replies_seq _ _ [_] [_]); apply replies_send.
  - apply (replies_seq _ _ [_] [_]); apply replies_send.
Qed.

(** X7.  A byte the [switch] has no label for is answered by one
    negative-acknowledge byte; nothing else is sent, nothing more is read,
    and the session, the pads and the peripheral are untouched. *)
Theorem unknown_command_nak wlen0 rlen0 cmd rest st :
  switch (Byte.to_N cmd) = case_default ->
  rx_stream (usb st) = cmd :: rest ->
  exists st', command_loop_round wlen0 rlen0 st = Some (tt, st')
    /\ rx_stream (usb st') = rest
    /\ usb_log (usb st') = usb_log (usb st) ++ [Rx cmd; Tx (u8 S_NAK)]
    /\ bus_view st' = bus_view st
    /\ baud st' = baud st /\ spi_hw st' = spi_hw st.
Proof.
  intros Hd Hs.
  apply (command_loop_round_replies wlen0 rlen0 cmd [u8 S_NAK] rest st Hs).
  rewrite Hd. apply replies_send.
Qed.

(** X4.  Set-bus-type reads the requested mask and acknowledges exactly when
    bit 3, SPI, is among the bits set; otherwise it answers with a
    negative-acknowledge.  Either way nothing but the channel changes. *)
Theorem set_bustype_response wlen0 rlen0 mask rest st :
  rx_stream (usb st) = u8 S_CMD_S_BUSTYPE :: mask :: rest ->
  exists st', command_loop_round wlen0 rlen0 st = Some (tt, st')
    /\ rx_stream (usb st') = rest
    /\ usb_log (usb st') =
         usb_log (usb st)
           ++ [Rx (u8 S_CMD_S_BUSTYPE); Rx mask;
               Tx (if N.testbit (Byte.to_N mask) 3 then u8 S_ACK else u8 S_NAK)]
    /\ bus_view st' = bus_view st
    /\ baud st' = baud st /\ spi_hw st' = spi_hw st.
Proof.
  intros Hs.
  destruct (command_loop_round_exact wlen0 rlen0 _ _ st Hs) as (c1 & (Hs1 & Hl1) & Hround).
  replace (switch (Byte.to_N (u8 S_CMD_S_BUSTYPE))) with case_S_BUSTYPE in Hround
    by reflexivity.
  cbn [run_case] in Hround. unfold s_cmd_s_bustype in Hround.
  destruct (on_usb_readbyte mask rest (set_usb st c1) Hs1) as (c2 & E2 & Hs2 & Hl2).
  rewrite (bind_some _ _ _ _ _ E2) in Hround.
  set (ans := if N.testbit (Byte.to_N mask) 3 then S_ACK else S_NAK).
  destruct (send_exact ans (set_usb (set_usb st c1) c2)) as (c3 & E3 & Hs3 & Hl3).
  rewrite (Hround (set_usb (set_usb (set_usb st c1) c2) c3)).
  2:{ unfold ans, send in E3. destruct (N.testbit (Byte.to_N mask) 3); exact E3. }
  eexists. split; [reflexivity|].
  cbn [usb set_usb] in *. rewrite flush_stream, flush_log.
  repeat split.
  - rewrite Hs3. exact Hs2.
  - rewrite Hl3, Hl2, Hl1, <- !app_assoc. unfold ans.
    destruct (N.testbit (Byte.to_N mask) 3); reflexivity.
Qed.

(** X6.  Set-chip-select with an index that is not below [NUM_CS_AVAILABLE]
    is answered by one negative-acknowledge byte, and the recorded line, the
    pads and the rest of the state but the channel are untouched. *)
Theorem set_chip_select_out_of_range wlen0 rlen0 cs rest st :
  NUM_CS_AVAILABLE <= Byte.to_N cs ->
  rx_stream (usb st) = u8 S_CMD_S_SPI_CS :: cs :: rest ->
  exists st', command_loop_round wlen0 rlen0 st = Some (tt, st')
    /\ rx_stream (usb st') = rest
    /\ usb_log (usb st') =
         usb_log (usb st) ++ [Rx (u8 S_CMD_S_SPI_CS); Rx cs; Tx (u8 S_NAK)]
    /\ bus_view st' = bus_view st
    /\ baud st' = baud st /\ spi_hw st' = spi_hw st.
Proof.
  intros Hcs Hs.
  destruct (command_loop_round_exact wlen0 rlen0 _ _ st Hs) as (c1 & (Hs1 & Hl1) & Hround).
  replace (switch (Byte.to_N (u8 S_CMD_S_SPI_CS))) with case_S_SPI_CS in Hround
    by reflexivity.
  cbn [run_case] in Hround.
  destruct (s_cmd_s_spi_cs_out_of_range cs rest (set_usb st c1) Hs1 Hcs)
    as (c2 & E2 & Hs2 & Hl2).
  rewrite (Hround _ E2). eexists. split; [reflexivity|].
  cbn [usb set_usb] in *. rewrite flush_stream, flush_log.
  repeat split.
  - exact Hs2.
  - rewrite Hl2, Hl1, <- app_assoc. reflexivity.
Qed.

(** X5.  Set-pin-state reads one byte, runs [disable_spi] if it is zero and
    [enable_spi] if it is anything else, and acknowledges in both cases.
    After a zero byte the flag is 0, the peripheral is down and the seven
    pins are inputs without pulls; after any other byte the flag is 1 and
    the peripheral is up.  The recorded line and the stored frequency do not
    change. *)
Theorem set_pin_state_response wlen0 rlen0 b rest st :
  rx_stream (usb st) = u8 S_CMD_S_PIN_STATE :: b :: rest ->
  exists st', command_loop_round wlen0 rlen0 st = Some (tt, st')
    /\ rx_stream (usb st') = rest
    /\ usb_log (usb st') =
         usb_log (usb st) ++ [Rx (u8 S_CMD_S_PIN_STATE); Rx b; Tx (u8 S_ACK)]
    /\ cs_pin st' = cs_pin st /\ baud st' = baud st
    /\ (if Byte.to_N b =? 0
        then bus_disabled_cfg st' /\ gpio st' = gpio (disable_spi st)
        else spi_enabled st' = 1 /\ spi_up (spi_hw st') = true
             /\ gpio st' = gpio (enable_spi st)).
Proof.
  intros Hs.
  destruct (command_loop_round_exact wlen0 rlen0 _ _ st Hs) as (c1 & (Hs1 & Hl1) & Hround).
  replace (switch (Byte.to_N (u8 S_CMD_S_PIN_STATE))) with case_S_PIN_STATE in Hround
    by reflexivity.
  cbn [run_case] in Hround. unfold s_cmd_s_pin_state in Hround.
  destruct (on_usb_readbyte b rest (set_usb st c1) Hs1) as (c2 & E2 & Hs2 & Hl2).
  rewrite (bind_some _ _ _ _ _ E2) in Hround.
  set (st2 := set_usb (set_usb st c1) c2) in *.
  set (st3 := if Byte.to_N b =? 0 then disable_spi st2 else enable_spi st2).
  destruct (send_exact S_ACK st3) as (c4 & E4 & Hs4 & Hl4).
  rewrite (Hround (set_usb st3 c4)).
  2:{ unfold st3 in *. unfold bind at 1.
      destruct (Byte.to_N b =? 0); exact E4. }
  eexists. split; [reflexivity|].
  assert (Hu3 : usb st3 = c2) by (unfold st3; destruct (Byte.to_N b =? 0); reflexivity).
  rewrite Hu3 in Hs4, Hl4.
  cbn [usb set_usb cs_pin baud gpio spi_enabled spi_hw].
  rewrite flush_stream, flush_log.
  split; [rewrite Hs4; exact Hs2|].
  split; [rewrite Hl4, Hl2; cbn [usb set_usb]; rewrite Hl1, <- !app_assoc; reflexivity|].
  unfold st3. destruct (Byte.to_N b =? 0).
  - split; [reflexivity|]. split; [reflexivity|].
    split; [|reflexivity].
    exact (disable_spi_disabled_cfg st2).
  - repeat split.
Qed.

(** X9.  Whatever rate the divider answers a request that is not zero with,
    the firmware acknowledges and reports it: the four bytes it sends are
    the little-endian bytes of the value it has stored in [baud], which is
    the answer cut to 32 bits.  Nothing compares the answer with the
    request.  The peripheral is at the answered rate; the flag, the recorded
    line, the pads and whether the peripheral is up are as before. *)
Theorem set_spi_freq_reports_stored wlen0 rlen0 bs rest st :
  length bs = 4%nat ->
  rx_stream (usb st) = u8 S_CMD_S_SPI_FREQ :: bs ++ rest ->
  le_value bs <> 0 ->
  exists st' reply,
    command_loop_round wlen0 rlen0 st = Some (tt, st')
    /\ rx_stream (usb st') = rest
    /\ usb_log (usb st') =
         usb_log (usb st) ++ Rx (u8 S_CMD_S_SPI_FREQ) :: map Rx bs
           ++ Tx (u8 S_ACK) :: map Tx reply
    /\ length reply = 4%nat /\ le_value reply = baud st'
    /\ baud st' = spi_divider (le_value bs) mod 2 ^ 32
    /\ spi_baudrate (spi_hw st') = spi_divider (le_value bs)
    /\ bus_view st' = bus_view st.
Proof.
  intros Hlen Hs Hf.
  destruct (command_loop_round_exact wlen0 rlen0 _ _ st Hs) as (c1 & (Hs1 & Hl1) & Hround).
  replace (switch (Byte.to_N (u8 S_CMD_S_SPI_FREQ))) with case_S_SPI_FREQ in Hround
    by reflexivity.
  cbn [run_case] in Hround.
  destruct (s_cmd_s_spi_freq_set bs rest (set_usb st c1) Hlen Hs1 Hf)
    as (c2 & H2 & Hs2 & Hl2).
  rewrite (Hround _ H2).
  eexists. exists (le_bytes 4 (uint32 (spi_divider (le_value bs)))).
  split; [reflexivity|].
  cbn [usb set_usb spi_hw baud spi_set_baudrate snd spi_baudrate].
  rewrite flush_stream, flush_log.
  split; [exact Hs2|].
  split; [rewrite Hl2; cbn [usb set_usb]; rewrite Hl1, <- app_assoc; reflexivity|].
  split; [apply length_le_bytes|].
  split.
  { rewrite le_value_le_bytes. change (256 ^ N.of_nat 4) with (2 ^ 32).
    unfold uint32. apply N.Div0.mod_mod. }
  repeat split.
Qed.

(** X14.  An SPI operation whose host stops short of the number of data
    bytes the write length variable holds is never answered: the round does
    not return, there being no timeout anywhere. *)
Theorem spiop_short_of_data_blocks wlen0 rlen0 hw hr data st :
  length hw = 3%nat -> length hr = 3%nat ->
  rx_stream (usb st) = u8 S_CMD_O_SPIOP :: hw ++ hr ++ data ->
  N.of_nat (length data) < store_le (uint32 wlen0) hw ->
  command_loop_round wlen0 rlen0 st = None.
Proof.
  intros Hhw Hhr Hs Hlt.
  destruct (on_usb_readbyte _ _ st Hs) as (c1 & E1 & Hs1 & _).
  unfold command_loop_round. rewrite (bind_some _ _ _ _ _ E1).
  replace (switch (Byte.to_N (u8 S_CMD_O_SPIOP))) with case_O_SPIOP by reflexivity.
  cbn [run_case]. unfold bind.
  rewrite (s_cmd_o_spiop_starved wlen0 rlen0 hw hr data (set_usb st c1) Hhw Hhr Hs1 Hlt).
  reflexivity.
Qed.

End MoreFacts.

(** * The firmware on the example board *)

#[local] Existing Instance example_board.

(** C1, at the index 1, which is in range: the firmware reads the command
    and its index and answers nothing, and the recorded chip select is still
    line 0. *)
Theorem set_chip_select_in_range_dropped :
  after (command_loop_round 0 0 (boot [[u8 S_CMD_S_SPI_CS; x01]]))
        (fun _ st' =>
           usb_log (usb st') = [Rx (u8 S_CMD_S_SPI_CS); Rx x01]
           /\ rx_stream (usb st') = []
           /\ chip_select_index st' = 0).
Proof. vm_compute. repeat split. Qed.

(** C2, with a stack slot whose fourth byte is 0xAA left over for [wlen].
    On the length fields 01 00 00 and 03 00 00 the write length the
    transaction uses is 0xAA000001, not the 24-bit value 1 of the bytes read;
    and a host that then sends the one data byte its length field announces
    is never answered. *)
Theorem spiop_write_length_keeps_stale_byte :
  after (spiop_lengths 0xAA000000 0
           (boot [[x01; x00; x00; x03; x00; x00]]))
        (fun lens _ =>
           fst lens = 0xAA000001 /\ snd lens = 3
           /\ le_value [x01; x00; x00] = 1 /\ fst lens / 2 ^ 24 = 0xAA)
  /\ s_cmd_o_spiop 0xAA000000 0
       (boot [[x01; x00; x00; x03; x00; x00]; [x9f]]) = None.
Proof.
  split.
  - vm_compute. repeat split.
  - apply (s_cmd_o_spiop_starved _ _ [x01; x00; x00] [x03; x00; x00] [x9f]);
      vm_compute; reflexivity.
Qed.

Lemma spiop_chunk_transparent_witness :
  exists st', s_cmd_o_spiop 0x123456 0 (boot long_spiop) = Some (tt, st')
    /\ rx_stream (usb st') = [x00]
    /\ length (usb_log (usb st')) = (6 + 4100 + 1 + 4099)%nat.
Proof.
  destruct (spiop_chunk_transparent 0x123456 0 [x04; x10; x00] [x03; x10; x00]
              (repeat x5a 4100) [x00] (boot long_spiop))
    as (st' & Hrun & Hs & Hl & _).
  - reflexivity.
  - reflexivity.
  - vm_compute. reflexivity.
  - vm_compute. reflexivity.
  - exists st'. split; [exact Hrun|]. split; [exact Hs|].
    rewrite Hl. rewrite !length_app, !length_map, length_miso_bytes.
    vm_compute. reflexivity.
Defined.

(** The bus disabled by a set-pin-state command: a state the loop reaches. *)
Lemma chip_select_index_valid_witness :
  after (command_loop_round 0 0 (boot [[u8 S_CMD_S_PIN_STATE; x00]]))
        (fun _ st' =>
           spi_enabled st' = 0
           /\ SPI_CS_0 <= cs_pin st' /\ chip_select_index st' < NUM_CS_AVAILABLE).
Proof.
  assert (H0 : after (command_loop_round 0 0 (boot [[u8 S_CMD_S_PIN_STATE; x00]]))
                     (fun _ st' => spi_enabled st' = 0))
    by (vm_compute; reflexivity).
  destruct (command_loop_round 0 0 (boot [[u8 S_CMD_S_PIN_STATE; x00]]))
    as [[[] st']|] eqn:E; cbn [after] in *; [|contradiction].
  split; [exact H0|].
  apply chip_select_index_valid.
  exact (reach_round _ _ _ _ (reach_setup _ _ _) E).
Defined.

(** A request for 1 MHz: the divider gives 125 MHz / 126. *)
Lemma set_spi_freq_response_witness :
  exists st',
    command_loop_round 0 0 (boot [[u8 S_CMD_S_SPI_FREQ]; [x40; x42; x0f; x00]])
    = Some (tt, st')
    /\ usb_log (usb st') =
         map Rx [u8 S_CMD_S_SPI_FREQ; x40; x42; x0f; x00]
           ++ map Tx (u8 S_ACK :: le_bytes 4 992063)
    /\ baud st' = 992063.
Proof.
  destruct (set_spi_freq_response 0 0 [x40; x42; x0f; x00] []
              (boot [[u8 S_CMD_S_SPI_FREQ]; [x40; x42; x0f; x00]]))
    as (st' & Hrun & _ & Hl & _ & _ & _ & Hb & _).
  - reflexivity.
  - reflexivity.
  - reflexivity.
  - vm_compute. split; [reflexivity | discriminate].
  - exists st'. split; [exact Hrun|]. split; [exact Hl | exact Hb].
Defined.

Lemma set_spi_freq_zero_response_witness :
  exists st',
    command_loop_round 0 0 (boot [[u8 S_CMD_S_SPI_FREQ; x00; x00]; [x00; x00]])
    = Some (tt, st')
    /\ usb_log (usb st') =
         map Rx [u8 S_CMD_S_SPI_FREQ; x00; x00; x00; x00] ++ [Tx (u8 S_NAK)]
    /\ baud st' = 12000000.
Proof.
  destruct (set_spi_freq_zero_response 0 0 [x00; x00; x00; x00] []
              (boot [[u8 S_CMD_S_SPI_FREQ; x00; x00]; [x00; x00]]))
    as (st' & Hrun & _ & Hl & Hb & _).
  - reflexivity.
  - reflexivity.
  - reflexivity.
  - exists st'. split; [exact Hrun|]. split; [exact Hl | exact Hb].
Defined.

Lemma sync_response_witness :
  exists st',
    command_loop_round 0 0 (boot [[u8 S_CMD_SYNCNOP]]) = Some (tt, st')
    /\ usb_log (usb st') = [Rx (u8 S_CMD_SYNCNOP); Tx (u8 S_NAK); Tx (u8 S_ACK)].
Proof.
  destruct (sync_response 0 0 [] (boot [[u8 S_CMD_SYNCNOP]]))
    as (st' & Hrun & _ & Hl & _).
  - reflexivity.
  - exists st'. split; [exact Hrun | exact Hl].
Defined.

(** The first command of a host is an SPI operation. *)
Lemma bus_enabled_at_startup_witness :
  spi_enabled (boot [[u8 S_CMD_O_SPIOP]]) = 1
  /\ exists c1,
       usb_moved (host_sends [[u8 S_CMD_O_SPIOP]]) c1 [Rx (u8 S_CMD_O_SPIOP)] []
       /\ spi_enabled (set_usb (boot [[u8 S_CMD_O_SPIOP]]) c1) = 1
       /\ spi_up (spi_hw (set_usb (boot [[u8 S_CMD_O_SPIOP]]) c1)) = true.
Proof.
  destruct (bus_enabled_at_startup (fun _ => pad_reset) spi_reset
              (host_sends [[u8 S_CMD_O_SPIOP]])) as [Hst Hfirst].
  split; [apply Hst|].
  destruct (Hfirst 0 0 (u8 S_CMD_O_SPIOP) [] eq_refl) as (c1 & Hm & _ & He & Hu & _).
  exists c1. split; [exact Hm|]. split; [exact He | exact Hu].
Defined.

(** ** The further properties on the example board *)

Lemma fixed_reply_commands_witness :
  exists st', command_loop_round 0 0 (boot [[u8 S_CMD_Q_PGMNAME]]) = Some (tt, st')
    /\ usb_log (usb st') = Rx (u8 S_CMD_Q_PGMNAME) :: map Tx (u8 S_ACK :: progname).
Proof.
  destruct (fixed_reply_commands 0 0 S_CMD_Q_PGMNAME (u8 S_ACK :: progname) []
              (boot [[u8 S_CMD_Q_PGMNAME]]))
    as (st' & Hrun & _ & Hl & _).
  - cbn [fixed_replies In]. right. right. right. left. reflexivity.
  - reflexivity.
  - exists st'. split; [exact Hrun | exact Hl].
Defined.

Lemma unknown_command_nak_witness :
  exists st', command_loop_round 0 0 (boot [[xff]]) = Some (tt, st')
    /\ usb_log (usb st') = [Rx xff; Tx (u8 S_NAK)].
Proof.
  destruct (unknown_command_nak 0 0 xff [] (boot [[xff]]))
    as (st' & Hrun & _ & Hl & _).
  - reflexivity.
  - reflexivity.
  - exists st'. split; [exact Hrun | exact Hl].
Defined.

Lemma set_bustype_response_witness :
  exists st', command_loop_round 0 0 (boot [[u8 S_CMD_S_BUSTYPE]; [x01]]) = Some (tt, st')
    /\ usb_log (usb st') = [Rx (u8 S_CMD_S_BUSTYPE); Rx x01; Tx (u8 S_NAK)].
Proof.
  destruct (set_bustype_response 0 0 x01 [] (boot [[u8 S_CMD_S_BUSTYPE]; [x01]]))
    as (st' & Hrun & _ & Hl & _).
  - reflexivity.
  - exists st'. split; [exact Hrun | exact Hl].
Defined.

Lemma set_chip_select_out_of_range_witness :
  exists st', command_loop_round 0 0 (boot [[u8 S_CMD_S_SPI_CS; x04]]) = Some (tt, st')
    /\ usb_log (usb st') = [Rx (u8 S_CMD_S_SPI_CS); Rx x04; Tx (u8 S_NAK)]
    /\ cs_pin st' = SPI_CS_0.
Proof.
  destruct (set_chip_select_out_of_range 0 0 x04 [] (boot [[u8 S_CMD_S_SPI_CS; x04]]))
    as (st' & Hrun & _ & Hl & Hv & _).
  - vm_compute. discriminate.
  - reflexivity.
  - exists st'. split; [exact Hrun|]. split; [exact Hl|].
    unfold bus_view in Hv. injection Hv as _ Hcs _ _. exact Hcs.
Defined.

Lemma set_pin_state_response_witness :
  exists st', command_loop_round 0 0 (boot [[u8 S_CMD_S_PIN_STATE; x00]]) = Some (tt, st')
    /\ usb_log (usb st') = [Rx (u8 S_CMD_S_PIN_STATE); Rx x00; Tx (u8 S_ACK)]
    /\ bus_disabled_cfg st'.
Proof.
  destruct (set_pin_state_response 0 0 x00 [] (boot [[u8 S_CMD_S_PIN_STATE; x00]]))
    as (st' & Hrun & _ & Hl & _ & _ & Hcfg).
  - reflexivity.
  - exists st'. split; [exact Hrun|]. split; [exact Hl|].
    cbn [Byte.to_N N.eqb] in Hcfg. apply Hcfg.
Defined.

(** A request for 1 Hz. *)
Lemma set_spi_freq_reports_stored_witness :
  exists st',
    command_loop_round 0 0 (boot [[u8 S_CMD_S_SPI_FREQ; x01; x00; x00; x00]])
    = Some (tt, st')
    /\ baud st' = 1.
Proof.
  destruct (set_spi_freq_reports_stored 0 0 [x01; x00; x00; x00] []
              (boot [[u8 S_CMD_S_SPI_FREQ; x01; x00; x00; x00]]))
    as (st' & reply & Hrun & _ & _ & _ & _ & Hb & _).
  - reflexivity.
  - reflexivity.
  - vm_compute. discriminate.
  - exists st'. split; [exact Hrun|]. rewrite Hb. vm_compute. reflexivity.
Defined.

(** The host announces five bytes and sends one. *)
Lemma spiop_short_of_data_blocks_witness :
  command_loop_round 0 0
    (boot [[u8 S_CMD_O_SPIOP; x05; x00; x00]; [x00; x00; x00; x9f]]) = None.
Proof.
  apply (spiop_short_of_data_blocks 0 0 [x05; x00; x00] [x00; x00; x00] [x9f]);
    vm_compute; reflexivity.
Defined.

Lemma enable_spi_setup_witness :
  driven_high (gpio (boot []) SPI_CS_0)
  /\ pad_function (gpio (boot []) SPI_SCK) = GPIO_FUNC_SPI
  /\ spi_up (spi_hw (boot [])) = true.
Proof.
  destruct (enable_spi_setup (power_on (fun _ => pad_reset) spi_reset (host_sends [])))
    as (_ & Hup & _ & Hd & _ & Hsig & _).
  - split; vm_compute; [discriminate | reflexivity].
  - split; [exact Hd|]. split; [|exact Hup].
    apply (Hsig SPI_SCK). split; vm_compute; discriminate.
Defined.


(** A write-enable operation, one byte out and none back, entered with the
    fourth byte of [wlen] left at 1, and then with that of [rlen]. *)
Lemma spiop_announced_lengths_witness :
  s_cmd_o_spiop 0x01000000 0 (boot [[x01; x00; x00; x00; x00; x00]; [x06]]) = None
  /\ after (s_cmd_o_spiop 0 0x01000000 (boot [[x01; x00; x00; x00; x00; x00]; [x06]]))
           (fun _ st' =>
              exists out,
                usb_log (usb st') =
                  map Rx [x01; x00; x00; x00; x00; x00] ++ map Rx [x06]
                    ++ [Tx (u8 S_ACK)] ++ map Tx out
                /\ N.of_nat (length out) = 2 ^ 24).
Proof.
  split.
  - apply (proj1 (spiop_announced_lengths 0x01000000 0 [x01; x00; x00]
                    [x00; x00; x00] [x06]
                    (boot [[x01; x00; x00; x00; x00; x00]; [x06]])
                    eq_refl eq_refl eq_refl eq_refl)).
    vm_compute. discriminate.
  - pose proof (proj2 (spiop_announced_lengths 0 0x01000000 [x01; x00; x00]
                         [x00; x00; x00] [x06]
                         (boot [[x01; x00; x00; x00; x00; x00]; [x06]])
                         eq_refl eq_refl eq_refl eq_refl) eq_refl) as H.
    destruct (s_cmd_o_spiop 0 0x01000000 (boot [[x01; x00; x00; x00; x00; x00]; [x06]]))
      as [[u st']|]; cbn [after] in *; [|contradiction].
    destruct H as (_ & out & Hl & Hn & _).
    exists out. split; [exact Hl|]. rewrite Hn. reflexivity.
Defined.


(** After a set-pin-state with a zero byte: a state the loop reaches. *)
Lemma reachable_bus_consistent_witness :
  after (command_loop_round 0 0 (boot [[u8 S_CMD_S_PIN_STATE; x00]]))
        (fun _ st' => spi_enabled st' = 0 /\ bus_consistent st').
Proof.
  assert (H0 : after (command_loop_round 0 0 (boot [[u8 S_CMD_S_PIN_STATE; x00]]))
                     (fun _ st' => spi_enabled st' = 0))
    by (vm_compute; reflexivity).
  destruct (command_loop_round 0 0 (boot [[u8 S_CMD_S_PIN_STATE; x00]]))
    as [[[] st']|] eqn:E; cbn [after] in *; [|contradiction].
  split; [exact H0|].
  apply reachable_bus_consistent.
  exact (reach_round _ _ _ _ (reach_setup _ _ _) E).
Defined.

Lemma command_loop_round_advances_witness :
  after (command_loop_round 0 0 (boot [[u8 S_CMD_SYNCNOP; x00]]))
        (fun _ st' =>
           cdc_advances (host_sends [[u8 S_CMD_SYNCNOP; x00]]) (usb st')
           /\ tx_queued (usb st') = 0).
Proof.
  assert (H0 : after (command_loop_round 0 0 (boot [[u8 S_CMD_SYNCNOP; x00]]))
                     (fun _ _ => True))
    by (vm_compute; exact I).
  destruct (command_loop_round 0 0 (boot [[u8 S_CMD_SYNCNOP; x00]]))
    as [[[] st']|] eqn:E; cbn [after] in *; [|contradiction].
  exact (command_loop_round_advances _ _ _ _ E).
Defined.

Lemma cs_select_deselect_restores_witness :
  cs_deselect SPI_CS_0 (cs_select SPI_CS_0 (gpio (boot []))) SPI_CS_0
  = gpio (boot []) SPI_CS_0
  /\ pad_level (cs_select SPI_CS_0 (gpio (boot [])) SPI_CS_0) = false.
Proof.
  destruct (cs_select_deselect_restores (gpio (boot [])) SPI_CS_0)
    as (Hall & Hlow & _).
  - vm_compute. reflexivity.
  - split; [apply Hall | exact Hlow].
Defined.
